(** * Chuffed bridge: a shallow embedding of the NIF and of the standalone driver

    Two translation units are modelled:
    - [c_src/chuffed_solver.cpp], the native extension
      ([solve_flatzinc/2], [create_solver/0], [destroy_solver/1]);
    - [c_src/chuffed_cnode_simple.cpp], the driver that reads FlatZinc on
      its standard input.

    A [std::string] is a sequence of 8-bit characters and is modelled by
    [string]; an [int] is modelled by [Z].  What the operating system, the
    host runtime and the solver library decide is read from explicit
    records of outcomes ([os], [chuffed]), so every function below is a
    total, executable function of its inputs and of those outcomes. *)

From Stdlib Require Import ZArith String Ascii List Lia Bool.
From stdpp Require Import gmap strings.
Import ListNotations.

Local Open Scope string_scope.

(* stdpp freezes [append] under [simpl]; the proofs below compute with it. *)
#[local] Arguments String.append !s1 s2 : simpl nomatch.

(** ** Character strings *)

Module Str.

Definition nl : string := String "010"%char EmptyString.
Definition dquote : string := String "034"%char EmptyString.
Definition nul : ascii := "000"%char.

Definition empty (s : string) : bool :=
  match s with EmptyString => true | String _ _ => false end.

(** [pat] occurs in [s] at position 0. *)
Fixpoint starts_with (pat s : string) : bool :=
  match pat, s with
  | EmptyString, _ => true
  | String _ _, EmptyString => false
  | String a pat', String b s' => Ascii.eqb a b && starts_with pat' s'
  end.

(** [std::string::find] on a C string: index of the first occurrence of
    [pat] at or after the current position, [None] for [npos]. *)
Fixpoint find_from (pat s : string) (pos : nat) : option nat :=
  if starts_with pat s then Some pos
  else match s with
       | EmptyString => None
       | String _ s' => find_from pat s' (S pos)
       end.

Definition find (s pat : string) : option nat := find_from pat s 0.

Definition is_npos (r : option nat) : bool :=
  match r with None => true | Some _ => false end.

(** The declarative reading of "[s] contains the sequence [pat]". *)
Definition contains (s pat : string) : Prop :=
  exists before after, s = before +:+ pat +:+ after.

(** [std::string::find_last_of(char)]. *)
Fixpoint find_last_of_from (c : ascii) (s : string) (pos : nat) : option nat :=
  match s with
  | EmptyString => None
  | String a s' =>
      match find_last_of_from c s' (S pos) with
      | Some i => Some i
      | None => if Ascii.eqb a c then Some pos else None
      end
  end.

Definition find_last_of (s : string) (c : ascii) : option nat :=
  find_last_of_from c s 0.


(** [s] ends with [suffix]. *)
Definition ends_with (s suffix : string) : bool :=
  String.eqb
    (String.substring (String.length s - String.length suffix) (String.length suffix) s)
    suffix.


(** [s.substr(0, n)]. *)
Definition substr0 (s : string) (n : nat) : string := String.substring 0 n s.

(** What a [char*] reader sees of a buffer: the bytes before the first
    NUL. *)
Fixpoint c_str (s : string) : string :=
  match s with
  | EmptyString => EmptyString
  | String a s' => if Ascii.eqb a nul then EmptyString else String a (c_str s')
  end.

Fixpoint nul_free (s : string) : bool :=
  match s with
  | EmptyString => true
  | String a s' => negb (Ascii.eqb a nul) && nul_free s'
  end.

End Str.

(** ** Host runtime terms *)

(** The values an [ERL_NIF_TERM] can denote, as far as the bridge builds or
    inspects them.  [TBadarg] is the exception marker of
    [enif_make_badarg]. *)
#[warnings="-register-all"] Inductive term : Type :=
| TAtom (name : string)
| TInt (z : Z)
| TBinary (data : string)
| TList (elems : list term)
| TTuple (elems : list term)
| TResource (id : nat)
| TBadarg.

(** An [ErlNifBinary]: a size and a buffer of that many bytes. *)
Record ErlNifBinary : Type := { bin_size : nat; bin_data : string }.

Module Enif.

Definition make_atom (name : string) : term := TAtom name.
Definition make_tuple2 (a b : term) : term := TTuple [a; b].

(** [enif_make_string(env, s, ERL_NIF_LATIN1)]: the list of the
    character codes of [s]. *)
Definition make_string (s : string) : term :=
  TList (map (fun c => TInt (Z.of_nat (nat_of_ascii c))) (list_ascii_of_string s)).

Definition inspect_binary (t : term) : option ErlNifBinary :=
  match t with
  | TBinary d => Some {| bin_size := String.length d; bin_data := d |}
  | _ => None
  end.

Definition make_binary (b : ErlNifBinary) : term := TBinary (bin_data b).

Definition get_list_cell (t : term) : option (term * term) :=
  match t with
  | TList (head :: tail) => Some (head, TList tail)
  | _ => None
  end.

(** A buffer of exactly [n] bytes whose content is whatever [junk] was in
    memory (NUL beyond it): what a fresh allocation holds. *)
Fixpoint fresh_buffer (n : nat) (junk : string) : string :=
  match n with
  | O => EmptyString
  | S n' =>
      match junk with
      | EmptyString => String Str.nul (fresh_buffer n' EmptyString)
      | String a junk' => String a (fresh_buffer n' junk')
      end
  end.

End Enif.

(** [memcpy(dst, src, n)] on buffers: the first [n] bytes of [dst] are
    replaced by the first [n] bytes of [src]. *)
Fixpoint memcpy (dst src : string) (n : nat) : string :=
  match n, dst, src with
  | S n', String _ dst', String b src' => String b (memcpy dst' src' n')
  | _, _, _ => dst
  end.

(** ** The world outside the bridge *)

(** [#ifdef _WIN32] selects one of two bodies at compile time. *)
Inductive platform : Type := Posix | Win32.

(** What a spawned shell line did: the bytes it wrote on the pipe, the
    value [pclose] returns for it, and the files it left behind. *)
Record child : Type := {
  child_output : string;
  child_status : Z;
  child_files : gmap string string;
}.

(** How a write through an [std::ofstream] ended. *)
Inductive write_outcome : Type :=
| WriteComplete
| WriteFailed (written : nat).

(** Outcomes the bridge does not control.  Each field is the answer of one
    primitive the source calls. *)
Record world : Type := {
  (** [GetTempPathA]: the directory, [None] when it returns 0. *)
  w_temp_path : option string;
  (** [GetTempFileNameA(dir, prefix, 0, _)]: the name it picks. *)
  w_temp_file_name : string -> string -> option string;
  (** [mkstemp(template)]: the name written back, [None] for -1. *)
  w_mkstemp : string -> option string;
  (** does [std::ofstream(path, binary)] open? *)
  w_open : string -> bool;
  (** outcome of [write] followed by [close] *)
  w_write : string -> string -> write_outcome;
  (** [popen(line, "r")] run against the current files *)
  w_popen : string -> gmap string string -> option child;
  (** [enif_alloc_binary(size, _)]: the junk in the new buffer, [None]
      when it returns 0 *)
  w_alloc_binary : nat -> option string;
}.

(** What the bridge changes: the file system, and the lines it handed to
    the shell, oldest first. *)
Record state : Type := {
  files : gmap string string;
  shell_log : list string;
}.

Definition set_files (st : state) (fs : gmap string string) : state :=
  {| files := fs; shell_log := shell_log st |}.

Module Os.

(** [mkstemp]: creates the file it names, exclusively. *)
Definition mkstemp (w : world) (template : string) (fs : gmap string string)
  : option string * gmap string string :=
  match w_mkstemp w template with
  | None => (None, fs)
  | Some name =>
      match fs !! name with
      | Some _ => (None, fs)
      | None => (Some name, <[name := EmptyString]> fs)
      end
  end.

(** A C library whose [mkstemp] insists on a template ending in six X,
    as the manual of the function requires. *)
Definition strict_mkstemp (w : world) : Prop :=
  forall template,
    Str.ends_with template "XXXXXX" = false -> w_mkstemp w template = None.

(** [GetTempFileNameA] with [uUnique = 0]: creates the empty file it
    names. *)
Definition GetTempFileNameA (w : world) (dir pre : string) (fs : gmap string string)
  : option string * gmap string string :=
  match w_temp_file_name w dir pre with
  | None => (None, fs)
  | Some name =>
      match fs !! name with
      | Some _ => (None, fs)
      | None => (Some name, <[name := EmptyString]> fs)
      end
  end.

(** [remove(path)] and [DeleteFileA(path)]. *)
Definition remove (path : string) (fs : gmap string string) : gmap string string :=
  delete path fs.

(** Opening an [std::ofstream] truncates or creates the file. *)
Definition ofstream_open (w : world) (path : string) (fs : gmap string string)
  : option (gmap string string) :=
  if w_open w path then Some (<[path := EmptyString]> fs) else None.

(** [fout.write(data, n); fout.close(); fout.good()]. *)
Definition ofstream_write_close (w : world) (path data : string) (fs : gmap string string)
  : bool * gmap string string :=
  match w_write w path data with
  | WriteComplete => (true, <[path := data]> fs)
  | WriteFailed n => (false, <[path := Str.substr0 data n]> fs)
  end.

(** [fgets(buffer, size, pipe)] with [size = n + 1]: at most [n] bytes,
    stopping after a newline; returns the bytes stored and the rest of
    the stream. *)
Fixpoint fgets (n : nat) (stream : string) : string * string :=
  match n, stream with
  | S n', String a rest =>
      if Ascii.eqb a "010"%char then (String a EmptyString, rest)
      else let (got, rest') := fgets n' rest in (String a got, rest')
  | _, _ => (EmptyString, stream)
  end.

(** The loop [while (fgets(buffer, 4096, pipe) != NULL) output += buffer;]
    [buffer] is appended as a C string. *)
Fixpoint read_loop (fuel : nat) (stream output : string) : string :=
  match fuel with
  | O => output
  | S fuel' =>
      match stream with
      | EmptyString => output
      | String _ _ =>
          let (buffer, rest) := fgets 4095 stream in
          read_loop fuel' rest (output +:+ Str.c_str buffer)
      end
  end.

Definition read_pipe (stream : string) : string :=
  read_loop (String.length stream) stream EmptyString.

(** [WEXITSTATUS] of [<sys/wait.h>]: bits 8 to 15 of a wait status. *)
Definition WEXITSTATUS (status : Z) : Z := Z.shiftr (Z.land status 65280) 8.


(** A child process that leaves the file system as it found it. *)
Definition read_only_child (w : world) : Prop :=
  forall line fs pipe, w_popen w line fs = Some pipe -> child_files pipe = fs.

End Os.

(** ** The native extension, [chuffed_solver.cpp] *)

Module Bridge.

(** [get_binary]: [Some] of the copied bytes when the term is a binary. *)
Definition get_binary (t : term) : option string :=
  match Enif.inspect_binary t with
  | None => None
  | Some bin => Some (Str.substr0 (bin_data bin) (bin_size bin))
  end.

(** [enif_alloc_binary(size, &bin)]. *)
Definition alloc_binary (w : world) (size : nat) : option ErlNifBinary :=
  match w_alloc_binary w size with
  | None => None
  | Some junk => Some {| bin_size := size; bin_data := Enif.fresh_buffer size junk |}
  end.

(** [make_binary]: a new binary holding [str], or the bare atom [error]
    when the allocation fails. *)
Definition make_binary (w : world) (str : string) : term :=
  match alloc_binary w (String.length str) with
  | None => Enif.make_atom "error"
  | Some bin =>
      Enif.make_binary
        {| bin_size := bin_size bin;
           bin_data := memcpy (bin_data bin) (str +:+ String Str.nul EmptyString)
                         (String.length str) |}
  end.

(** [get_string_list]: the loop over the list cells; [fuel] bounds the
    number of cells visited. *)
Fixpoint get_string_list_loop (fuel : nat) (tail : term) (result : list string)
  : option (list string) :=
  match fuel with
  | O => Some result
  | S fuel' =>
      match Enif.get_list_cell tail with
      | None => Some result
      | Some (head, tail') =>
          match get_binary head with
          | None => None
          | Some str => get_string_list_loop fuel' tail' (result ++ [str])
          end
      end
  end.

Definition get_string_list (lst : term) : option (list string) :=
  match lst with
  | TList elems => get_string_list_loop (S (length elems)) lst []
  | _ => Some []
  end.

(** [create_temp_file(prefix, suffix, temp_path)]: [Some temp_path] when
    it returns [true]. *)
Definition create_temp_file (pf : platform) (w : world) (prefix suffix : string)
    (fs : gmap string string) : option string * gmap string string :=
  match pf with
  | Win32 =>
      match w_temp_path w with
      | None => (None, fs)
      | Some temp_dir =>
          let unique_prefix := "CHF" in
          match Os.GetTempFileNameA w temp_dir unique_prefix fs with
          | (None, fs1) => (None, fs1)
          | (Some temp_file, fs1) =>
              let fs2 := Os.remove temp_file fs1 in
              let base_name :=
                match Str.find_last_of temp_file "."%char with
                | Some last_dot => Str.substr0 temp_file last_dot
                | None => temp_file
                end in
              (Some (base_name +:+ suffix), fs2)
          end
      end
  | Posix =>
      let temp_template := "/tmp/" +:+ prefix +:+ "XXXXXX" +:+ suffix in
      match Os.mkstemp w temp_template fs with
      | (None, fs1) => (None, fs1)
      | (Some temp_template_c, fs1) => (Some temp_template_c, fs1)
      end
  end.

(** The line given to [popen] or [_popen]. *)
Definition shell_line (pf : platform) (command : string) : string :=
  match pf with
  | Win32 => "cmd.exe /c " +:+ Str.dquote +:+ command +:+ " 2>&1" +:+ Str.dquote
  | Posix => command +:+ " 2>&1"
  end.

(** [execute_command(command, output, exit_code)]: [Some (output,
    exit_code)] when it returns [true]. *)
Definition execute_command (pf : platform) (w : world) (command : string) (st : state)
  : option (string * Z) * state :=
  let line := shell_line pf command in
  let logged := {| files := files st; shell_log := shell_log st ++ [line] |} in
  match w_popen w line (files st) with
  | None => (None, logged)
  | Some pipe =>
      let output := Os.read_pipe (child_output pipe) in
      let st' := set_files logged (child_files pipe) in
      let exit_code := child_status pipe in
      if (exit_code =? -1)%Z then (None, st')
      else
        match pf with
        | Win32 => (Some (output, exit_code), st')
        | Posix => (Some (output, Os.WEXITSTATUS exit_code), st')
        end
  end.

Definition error_atom (reason : string) : term :=
  Enif.make_tuple2 (Enif.make_atom "error") (Enif.make_atom reason).

Definition error_string (reason : string) : term :=
  Enif.make_tuple2 (Enif.make_atom "error") (Enif.make_string reason).

(** The value of [options_json] once lines 213 to 215 have run. *)
Definition options_of (argv1 : term) : string :=
  match get_binary argv1 with
  | Some options_json => options_json
  | None => "{}"
  end.

(** The command built for the solver. *)
Definition solver_command (pf : platform) (temp_file : string) : string :=
  match pf with
  | Win32 => "chuffed " +:+ Str.dquote +:+ temp_file +:+ Str.dquote
  | Posix => "chuffed " +:+ temp_file
  end.

(** The final [if] of [solve_flatzinc_nif]: the tagged result for an exit
    code and the captured output. *)
Definition solve_result (w : world) (exit_code : Z) (output : string) : term :=
  if (exit_code =? 0)%Z || negb (Str.is_npos (Str.find output "=========="))
  then Enif.make_tuple2 (Enif.make_atom "ok") (make_binary w output)
  else Enif.make_tuple2 (Enif.make_atom "error") (make_binary w output).

Definition solve_flatzinc_nif (pf : platform) (w : world) (argv : list term) (st : state)
  : term * state :=
  match argv with
  | [argv0; argv1] =>
      match get_binary argv0 with
      | None => (error_atom "invalid_flatzinc", st)
      | Some flatzinc_content =>
          let options_json := options_of argv1 in
          match create_temp_file pf w "chuffed_" ".fzn" (files st) with
          | (None, fs1) => (error_string "failed_to_create_temp_file", set_files st fs1)
          | (Some temp_file, fs1) =>
              match Os.ofstream_open w temp_file fs1 with
              | None =>
                  (error_string "failed_to_open_temp_file",
                   set_files st (Os.remove temp_file fs1))
              | Some fs2 =>
                  let (good, fs3) :=
                    Os.ofstream_write_close w temp_file flatzinc_content fs2 in
                  if negb good then
                    (error_string "failed_to_write_temp_file",
                     set_files st (Os.remove temp_file fs3))
                  else
                    let command := solver_command pf temp_file in
                    match execute_command pf w command (set_files st fs3) with
                    | (None, st4) =>
                        (error_string "failed_to_execute_chuffed",
                         set_files st4 (Os.remove temp_file (files st4)))
                    | (Some (output, exit_code), st4) =>
                        let st5 := set_files st4 (Os.remove temp_file (files st4)) in
                        (solve_result w exit_code output, st5)
                    end
              end
          end
      end
  | _ => (TBadarg, st)
  end.

(** A two-element tuple whose first element is [ok] or [error]. *)
Definition tagged (t : term) : Prop :=
  exists tag body, t = TTuple [TAtom tag; body] /\ (tag = "ok" \/ tag = "error").

End Bridge.

(** ** Solver handles *)

(** The resource object: [void* solver] ([None] for [NULL]) and the
    [initialized] flag. *)
Record ChuffedSolver : Type := {
  solver : option nat;
  initialized : bool;
}.

(** A resource object as the runtime keeps it: the resource type it was
    allocated with, its content and the number of references to it. *)
Record resource : Type := {
  res_type : option string;
  res_obj : ChuffedSolver;
  res_refs : nat;
}.

(** The runtime's side of the extension: the static [chuffed_solver_type]
    ([None] while it is [NULL]), the live resource objects, the next free
    address, the objects the destructor has been run on (as it left them),
    and whether the next registration and allocation succeed. *)
Record runtime : Type := {
  chuffed_solver_type : option string;
  heap : gmap nat resource;
  next_addr : nat;
  finalized : list (nat * ChuffedSolver);
  can_open_type : bool;
  can_alloc_resource : bool;
}.

Module Handle.

Definition set_heap (rt : runtime) (h : gmap nat resource) : runtime :=
  {| chuffed_solver_type := chuffed_solver_type rt;
     heap := h;
     next_addr := next_addr rt;
     finalized := finalized rt;
     can_open_type := can_open_type rt;
     can_alloc_resource := can_alloc_resource rt |}.

(** [chuffed_solver_destructor]. *)
Definition chuffed_solver_destructor (obj : ChuffedSolver) : ChuffedSolver :=
  if initialized obj
  then {| solver := solver obj; initialized := false |}
  else obj.

(** [load]: 0 when the resource type was registered, 1 otherwise. *)
Definition load (rt : runtime) : Z * runtime :=
  let opened := if can_open_type rt then Some "ChuffedSolver" else None in
  let rt' := {| chuffed_solver_type := opened;
                heap := heap rt;
                next_addr := next_addr rt;
                finalized := finalized rt;
                can_open_type := can_open_type rt;
                can_alloc_resource := can_alloc_resource rt |} in
  match opened with
  | None => (1%Z, rt')
  | Some _ => (0%Z, rt')
  end.

Definition ref_count (rt : runtime) (id : nat) : nat :=
  match heap rt !! id with
  | Some r => res_refs r
  | None => 0
  end.

(** [enif_alloc_resource(type, size)]: a new object with one reference,
    [None] for [NULL]. *)
Definition alloc_resource (rt : runtime) (ty : option string) : option nat * runtime :=
  if can_alloc_resource rt then
    let id := next_addr rt in
    let blank := {| solver := None; initialized := false |} in
    (Some id,
     {| chuffed_solver_type := chuffed_solver_type rt;
        heap := <[id := {| res_type := ty; res_obj := blank; res_refs := 1 |}]> (heap rt);
        next_addr := S id;
        finalized := finalized rt;
        can_open_type := can_open_type rt;
        can_alloc_resource := can_alloc_resource rt |})
  else (None, rt).

(** A store into the object at [id]. *)
Definition write_obj (rt : runtime) (id : nat) (obj : ChuffedSolver) : runtime :=
  set_heap rt
    (alter (fun r => {| res_type := res_type r; res_obj := obj; res_refs := res_refs r |})
       id (heap rt)).

(** [enif_make_resource]: the term holds one more reference. *)
Definition make_resource (rt : runtime) (id : nat) : term * runtime :=
  (TResource id,
   set_heap rt
     (alter (fun r => {| res_type := res_type r; res_obj := res_obj r;
                         res_refs := S (res_refs r) |})
        id (heap rt))).

(** Dropping one reference, by [enif_release_resource] or by the garbage
    collector: the last one runs the destructor and frees the object. *)
Definition release_resource (rt : runtime) (id : nat) : runtime :=
  match heap rt !! id with
  | None => rt
  | Some r =>
      match res_refs r with
      | 0 | 1 =>
          {| chuffed_solver_type := chuffed_solver_type rt;
             heap := delete id (heap rt);
             next_addr := next_addr rt;
             finalized := finalized rt ++ [(id, chuffed_solver_destructor (res_obj r))];
             can_open_type := can_open_type rt;
             can_alloc_resource := can_alloc_resource rt |}
      | S n =>
          set_heap rt
            (<[id := {| res_type := res_type r; res_obj := res_obj r; res_refs := n |}]>
               (heap rt))
      end
  end.

(** [enif_get_resource(env, term, chuffed_solver_type, &obj)]. *)
Definition get_resource (rt : runtime) (t : term) : option nat :=
  match t with
  | TResource id =>
      match heap rt !! id with
      | Some r =>
          if bool_decide (res_type r = chuffed_solver_type rt) then Some id else None
      | None => None
      end
  | _ => None
  end.

Definition create_solver_nif (rt : runtime) (argv : list term) : term * runtime :=
  match argv with
  | [] =>
      match alloc_resource rt (chuffed_solver_type rt) with
      | (None, rt1) => (Bridge.error_atom "allocation_failed", rt1)
      | (Some id, rt1) =>
          let rt2 := write_obj rt1 id {| solver := None; initialized := false |} in
          let (resource_term, rt3) := make_resource rt2 id in
          let rt4 := release_resource rt3 id in
          (Enif.make_tuple2 (Enif.make_atom "ok") resource_term, rt4)
      end
  | _ => (TBadarg, rt)
  end.

Definition destroy_solver_nif (rt : runtime) (argv : list term) : term * runtime :=
  match argv with
  | [argv0] =>
      match get_resource rt argv0 with
      | None => (Bridge.error_atom "invalid_resource", rt)
      | Some _ => (Enif.make_atom "ok", rt)
      end
  | _ => (TBadarg, rt)
  end.

(** The object [create_solver_nif] sets up: no solver, not initialized. *)
Definition blank : ChuffedSolver := {| solver := None; initialized := false |}.

(** [t] is a live resource term of the type registered by [load]. *)
Definition is_handle (rt : runtime) (t : term) : Prop :=
  exists id r,
    t = TResource id /\ heap rt !! id = Some r /\ res_type r = chuffed_solver_type rt.

End Handle.

(** ** The standalone driver, [chuffed_cnode_simple.cpp] *)

Module Driver.

(** The engine's [RESULT] enumeration.  Its header is not part of the
    bridge; the driver names [RES_SAT], [RES_LUN] and [RES_GUN], the other
    two stand for every remaining status. *)
Inductive RESULT : Type := RES_SAT | RES_LUN | RES_GUN | RES_UNK | RES_SEA.

(** What a [catch] clause of [main] can receive. *)
Inductive exn : Type :=
| StdException (what : string)
| OtherException.

(** The embedded solver, as the driver sees it.
    - [parseOptions]: [Some e] when it throws;
    - [fz_solve content]: whether [FlatZinc::s] is non-null afterwards and
      the text left on [error_stream], or the exception thrown;
    - [engine_solve content]: [engine.status] and the text written to
      [output_stream], or the exception thrown. *)
Record chuffed : Type := {
  parseOptions : option exn;
  fz_solve : string -> exn + (bool * string);
  engine_solve : string -> exn + (RESULT * string);
}.

(** What a run leaves behind: both streams and the value [main] returns. *)
Record run : Type := {
  out : string;
  err : string;
  exit_status : Z;
}.

(** [std::getline(std::cin, line)]: [None] when nothing can be
    extracted, else the line and the rest of the stream. *)
Fixpoint getline_go (stream : string) : string * string :=
  match stream with
  | EmptyString => (EmptyString, EmptyString)
  | String a rest =>
      if Ascii.eqb a "010"%char then (EmptyString, rest)
      else let (line, rest') := getline_go rest in (String a line, rest')
  end.

Definition getline (stream : string) : option (string * string) :=
  match stream with
  | EmptyString => None
  | String _ _ => Some (getline_go stream)
  end.

(** [while (std::getline(std::cin, line)) flatzinc_content += line + "\n";] *)
Fixpoint read_lines (fuel : nat) (stream flatzinc_content : string) : string :=
  match fuel with
  | O => flatzinc_content
  | S fuel' =>
      match getline stream with
      | None => flatzinc_content
      | Some (line, rest) =>
          read_lines fuel' rest (flatzinc_content +:+ (line +:+ Str.nl))
      end
  end.

Fixpoint back (s : string) : option ascii :=
  match s with
  | EmptyString => None
  | String a EmptyString => Some a
  | String _ s' => back s'
  end.

Definition read_stdin (stdin : string) : string :=
  let flatzinc_content := read_lines (S (String.length stdin)) stdin EmptyString in
  if negb (Str.empty flatzinc_content)
     && negb (match back flatzinc_content with
              | Some a => Ascii.eqb a "010"%char
              | None => false
              end)
  then flatzinc_content +:+ Str.nl
  else flatzinc_content.

(** [std::cerr << "error\n" << reason << std::endl; return 1;] *)
Definition failure (reason : string) : run :=
  {| out := EmptyString;
     err := "error" +:+ Str.nl +:+ reason +:+ Str.nl;
     exit_status := 1 |}.

(** [std::cout << "ok\n" << solution << std::flush;] then [return 0;] *)
Definition success (solution : string) : run :=
  {| out := "ok" +:+ Str.nl +:+ solution;
     err := EmptyString;
     exit_status := 0 |}.

(** The two [catch] clauses. *)
Definition caught (e : exn) : run :=
  match e with
  | StdException what => failure what
  | OtherException => failure "Unknown exception"
  end.

Definition main (c : chuffed) (stdin : string) : run :=
  let flatzinc_content := read_stdin stdin in
  if Str.empty flatzinc_content then failure "No FlatZinc content provided"
  else
    match parseOptions c with
    | Some e => caught e
    | None =>
        match fz_solve c flatzinc_content with
        | inl e => caught e
        | inr (parsed, errors) =>
            if negb parsed then failure "Failed to parse FlatZinc problem"
            else
              match engine_solve c flatzinc_content with
              | inl e => caught e
              | inr (status, solution) =>
                  match status with
                  | RES_SAT => success solution
                  | RES_LUN | RES_GUN => failure "UNSATISFIABLE"
                  | _ =>
                      if Str.empty solution then failure "No solution found"
                      else success solution
                  end
              end
        end
    end.

(** An [ok] line is on the output stream. *)
Definition ok_written (r : run) : Prop :=
  exists rest, out r = "ok" +:+ Str.nl +:+ rest.

(** [s] with a newline appended unless it is empty or already ends with
    one. *)
Fixpoint with_final_newline (s : string) : string :=
  match s with
  | EmptyString => EmptyString
  | String a rest =>
      match rest with
      | EmptyString =>
          if Ascii.eqb a "010"%char then String a EmptyString else String a Str.nl
      | String _ _ => String a (with_final_newline rest)
      end
  end.

End Driver.

(** ** Concrete scenarios *)

Module Sample.

Definition payload : string :=
  "var 1..3: x; constraint int_eq(x, 2); solve satisfy;" +:+ Str.nl.

Definition sat_output : string :=
  "x = 2;" +:+ Str.nl +:+ "----------" +:+ Str.nl +:+ "==========" +:+ Str.nl.

Definition unsat_output : string := "=====UNSATISFIABLE=====" +:+ Str.nl.

Definition scratch : string := "/tmp/chuffed_Ab3xYz.fzn".

Definition start : state := {| files := ∅; shell_log := [] |}.

(** A POSIX-like system on which every step succeeds; the solver writes
    [output] and [pclose] returns [status]; binaries can be allocated
    when [alloc] holds. *)
Definition posix (status : Z) (output : string) (alloc : bool) : world :=
  {| w_temp_path := None;
     w_temp_file_name := fun _ _ => None;
     w_mkstemp := fun template =>
       if String.eqb template "/tmp/chuffed_XXXXXX.fzn" then Some scratch else None;
     w_open := fun _ => true;
     w_write := fun _ _ => WriteComplete;
     w_popen := fun _ fs =>
       Some {| child_output := output; child_status := status; child_files := fs |};
     w_alloc_binary := fun _ => if alloc then Some "junk" else None |}.

(** A Windows system: the temporary directory is [C:\Temp\] and
    [GetTempFileNameA] picks the number 1A2B. *)
Definition win32 (status : Z) (output : string) : world :=
  {| w_temp_path := Some "C:\Temp\";
     w_temp_file_name := fun dir pre => Some (dir +:+ pre +:+ "1A2B.tmp");
     w_mkstemp := fun _ => None;
     w_open := fun _ => true;
     w_write := fun _ _ => WriteComplete;
     w_popen := fun _ fs =>
       Some {| child_output := output; child_status := status; child_files := fs |};
     w_alloc_binary := fun _ => Some EmptyString |}.

(** A runtime before [load], able to register and to allocate. *)
Definition fresh_runtime : runtime :=
  {| chuffed_solver_type := None;
     heap := ∅;
     next_addr := 0;
     finalized := [];
     can_open_type := true;
     can_alloc_resource := true |}.

(** The runtime once [load] and one [create_solver] have run. *)
Definition one_handle : runtime :=
  snd (Handle.create_solver_nif (snd (Handle.load fresh_runtime)) []).

(** A solver that parses the problem and ends with [status], having
    written [solution]. *)
Definition engine (status : Driver.RESULT) (solution : string) : Driver.chuffed :=
  {| Driver.parseOptions := None;
     Driver.fz_solve := fun _ => inr (true, EmptyString);
     Driver.engine_solve := fun _ => inr (status, solution) |}.

(** A POSIX-like system described step by step: the name [mkstemp]
    returns, whether the stream opens, how the write ends, and what the
    spawned solver does ([None] when [popen] fails). *)
Definition system (name : option string) (opens : bool) (written : write_outcome)
    (solver_run : option (Z * string)) : world :=
  {| w_temp_path := None;
     w_temp_file_name := fun _ _ => None;
     w_mkstemp := fun _ => name;
     w_open := fun _ => opens;
     w_write := fun _ _ => written;
     w_popen := fun _ fs =>
       match solver_run with
       | None => None
       | Some (status, output) =>
           Some {| child_output := output; child_status := status; child_files := fs |}
       end;
     w_alloc_binary := fun _ => Some EmptyString |}.

(** A file system that holds one unrelated file. *)
Definition busy : state :=
  {| files := {[ "/tmp/notes.txt" := "keep" ]}; shell_log := [] |}.

(** A Windows file system in which the name the bridge will derive is
    already taken by an older file. *)
Definition stale : state :=
  {| files := {[ "C:\Temp\CHF1A2B.fzn" := "an older model" ]}; shell_log := [] |}.

(** The runtime once [load] has run. *)
Definition loaded : runtime := snd (Handle.load fresh_runtime).

End Sample.

(** * Properties *)

(** ** Strings *)

Module StrFacts.
Import Str.

Lemma app_nil_r (s : string) : s +:+ EmptyString = s.
Proof. induction s as [|a s IH]; simpl; [reflexivity | now rewrite IH]. Qed.

Lemma app_assoc (a b c : string) : (a +:+ b) +:+ c = a +:+ (b +:+ c).
Proof. induction a as [|x a IH]; simpl; [reflexivity | now rewrite IH]. Qed.

Lemma app_length (a b : string) :
  String.length (a +:+ b) = String.length a + String.length b.
Proof. induction a as [|x a IH]; simpl; [reflexivity | now rewrite IH]. Qed.

Lemma prefix_app (p r : string) : starts_with p (p +:+ r) = true.
Proof.
  induction p as [|a p IH]; simpl; [reflexivity |].
  now rewrite Ascii.eqb_refl.
Qed.

Lemma prefix_split (p s : string) :
  starts_with p s = true -> exists r, s = p +:+ r.
Proof.
  revert s; induction p as [|a p IH]; intros s H.
  - exists s; reflexivity.
  - destruct s as [|b s]; simpl in H; [discriminate |].
    apply andb_true_iff in H as [Hab H].
    apply Ascii.eqb_eq in Hab as ->.
    destruct (IH _ H) as [r ->]. exists r; reflexivity.
Qed.

Lemma find_from_some (pat s : string) (pos : nat) :
  contains s pat -> find_from pat s pos <> None.
Proof.
  intros (b & a & ->). revert pos.
  induction b as [|x b IH]; intros pos.
  - simpl. destruct (pat +:+ a) eqn:E.
    + simpl. destruct pat; [discriminate | discriminate].
    + simpl. rewrite <- E, prefix_app. discriminate.
  - simpl.
    destruct (starts_with pat (String x (b +:+ pat +:+ a))); [discriminate |].
    apply IH.
Qed.

Lemma find_from_contains (pat s : string) (pos : nat) :
  find_from pat s pos <> None -> contains s pat.
Proof.
  revert pos; induction s as [|x s IH]; intros pos H.
  - simpl in H. destruct (starts_with pat EmptyString) eqn:E; [| congruence].
    destruct (prefix_split _ _ E) as [r Hr].
    exists EmptyString, r. exact Hr.
  - simpl in H. destruct (starts_with pat (String x s)) eqn:E.
    + destruct (prefix_split _ _ E) as [r Hr].
      exists EmptyString, r. exact Hr.
    + destruct (IH _ H) as (b & a & ->).
      exists (String x b), a. reflexivity.
Qed.

Lemma find_contains (s pat : string) : find s pat <> None <-> contains s pat.
Proof. split; [apply find_from_contains | apply find_from_some]. Qed.

Lemma substr0_full (s : string) : substr0 s (String.length s) = s.
Proof.
  unfold substr0. induction s as [|a s IH]; simpl; [reflexivity | now rewrite IH].
Qed.

Lemma empty_iff (s : string) : empty s = true <-> s = EmptyString.
Proof. destruct s; simpl; split; congruence. Qed.

Lemma c_str_nul_free (s : string) : nul_free s = true -> c_str s = s.
Proof.
  induction s as [|a s IH]; simpl; [reflexivity |].
  intros [Ha Hs]%andb_true_iff.
  apply negb_true_iff in Ha. rewrite Ha, IH; auto.
Qed.

Lemma nul_free_app (a b : string) :
  nul_free (a +:+ b) = nul_free a && nul_free b.
Proof.
  induction a as [|x a IH]; simpl; [reflexivity |].
  now rewrite IH, andb_assoc.
Qed.

End StrFacts.

(** ** Reading the pipe *)

Module OsFacts.
Import Str StrFacts Os.

Lemma fgets_split (n : nat) (stream got rest : string) :
  fgets n stream = (got, rest) -> stream = got +:+ rest.
Proof.
  revert stream got rest; induction n as [|n IH]; intros stream got rest H.
  - destruct stream; inversion H; reflexivity.
  - destruct stream as [|a s]; [inversion H; reflexivity |].
    cbn [fgets] in H. destruct (Ascii.eqb a "010").
    + inversion H; reflexivity.
    + destruct (fgets n s) as [g r] eqn:E. inversion H; subst.
      simpl. f_equal. now apply IH.
Qed.

Lemma fgets_progress (n : nat) (a : ascii) (s got rest : string) :
  fgets (S n) (String a s) = (got, rest) ->
  String.length rest < String.length (String a s).
Proof.
  intros H. pose proof (fgets_split _ _ _ _ H) as Hs.
  cbn [fgets] in H. destruct (Ascii.eqb a "010").
  - inversion H; subst. simpl. lia.
  - destruct (fgets n s) as [g r] eqn:E. inversion H; subst.
    apply fgets_split in E. subst s. simpl. rewrite app_length. lia.
Qed.

Lemma read_loop_nul_free (fuel : nat) (stream output : string) :
  String.length stream <= fuel ->
  nul_free stream = true ->
  read_loop fuel stream output = output +:+ stream.
Proof.
  revert stream output; induction fuel as [|fuel IH]; intros stream output Hlen Hnf.
  - destruct stream; simpl in Hlen; [| lia]. simpl. now rewrite app_nil_r.
  - destruct stream as [|a s]; [simpl; now rewrite app_nil_r |].
    cbn [read_loop].
    destruct (fgets 4095 (String a s)) as [buffer rest] eqn:E.
    pose proof (fgets_progress _ _ _ _ _ E) as Hlt.
    pose proof (fgets_split _ _ _ _ E) as Hs.
    rewrite Hs, nul_free_app in Hnf. apply andb_true_iff in Hnf as [Hb Hr].
    rewrite IH; [| simpl in Hlt, Hlen; lia | exact Hr].
    rewrite (c_str_nul_free _ Hb), app_assoc, <- Hs. reflexivity.
Qed.

(** Output without NUL bytes is captured as the solver wrote it. *)
Lemma read_pipe_nul_free (stream : string) :
  nul_free stream = true -> read_pipe stream = stream.
Proof.
  intros H. unfold read_pipe. now rewrite read_loop_nul_free.
Qed.

(** The bound used for the loop is enough: more fuel reads nothing more. *)
Lemma read_loop_fuel (fuel extra : nat) (stream output : string) :
  String.length stream <= fuel ->
  read_loop (fuel + extra) stream output = read_loop fuel stream output.
Proof.
  revert stream output; induction fuel as [|fuel IH]; intros stream output Hlen.
  - destruct stream; simpl in Hlen; [| lia]. destruct extra; reflexivity.
  - destruct stream as [|a s]; [reflexivity |].
    cbn [read_loop Nat.add].
    destruct (fgets 4095 (String a s)) as [buffer rest] eqn:E.
    pose proof (fgets_progress _ _ _ _ _ E) as Hlt.
    apply IH. simpl in Hlt, Hlen. lia.
Qed.



End OsFacts.

(** ** Marshalling *)

Module MarshalFacts.
Import Str StrFacts.

Lemma memcpy_fresh (s tail junk : string) :
  memcpy (Enif.fresh_buffer (String.length s) junk) (s +:+ tail) (String.length s) = s.
Proof.
  revert junk; induction s as [|a s IH]; intros junk; [reflexivity |].
  destruct junk as [|j junk]; simpl; now rewrite IH.
Qed.

Lemma fresh_buffer_length (n : nat) (junk : string) :
  String.length (Enif.fresh_buffer n junk) = n.
Proof.
  revert junk; induction n as [|n IH]; intros junk; [reflexivity |].
  destruct junk; simpl; now rewrite IH.
Qed.

Lemma get_binary_binary (d : string) : Bridge.get_binary (TBinary d) = Some d.
Proof. unfold Bridge.get_binary; simpl. now rewrite substr0_full. Qed.

Lemma get_binary_none (t : term) :
  Bridge.get_binary t = None <-> forall d, t <> TBinary d.
Proof.
  split.
  - intros H d ->. now rewrite get_binary_binary in H.
  - intros H. destruct t; try reflexivity. now destruct (H data).
Qed.

(** The binary handed to the host has the size of the string and holds
    its bytes. *)
Lemma alloc_binary_size (w : world) (size : nat) (bin : ErlNifBinary) :
  Bridge.alloc_binary w size = Some bin ->
  bin_size bin = size /\ String.length (bin_data bin) = size.
Proof.
  unfold Bridge.alloc_binary. destruct (w_alloc_binary w size); [| discriminate].
  intros [= <-]; simpl. split; [reflexivity | apply fresh_buffer_length].
Qed.

Lemma make_binary_allocated (w : world) (str : string) :
  w_alloc_binary w (String.length str) <> None ->
  Bridge.make_binary w str = TBinary str.
Proof.
  intros H. unfold Bridge.make_binary, Bridge.alloc_binary.
  destruct (w_alloc_binary w (String.length str)) as [junk|]; [| congruence].
  unfold Enif.make_binary; simpl. now rewrite memcpy_fresh.
Qed.

Lemma make_binary_failed (w : world) (str : string) :
  w_alloc_binary w (String.length str) = None ->
  Bridge.make_binary w str = TAtom "error".
Proof.
  intros H. unfold Bridge.make_binary, Bridge.alloc_binary. now rewrite H.
Qed.

End MarshalFacts.

(** ** The result classifier *)

Module ClassifierFacts.
Import Str StrFacts.

Lemma is_npos_find (output pat : string) :
  is_npos (find output pat) = false <-> contains output pat.
Proof.
  rewrite <- find_contains. destruct (find output pat); simpl; split; congruence.
Qed.

Lemma solve_result_tag (w : world) (exit_code : Z) (output : string) :
  Bridge.solve_result w exit_code output =
  TTuple [TAtom (if (exit_code =? 0)%Z || negb (is_npos (find output "=========="))
                 then "ok" else "error");
          Bridge.make_binary w output].
Proof.
  unfold Bridge.solve_result.
  destruct ((exit_code =? 0)%Z || negb (is_npos (find output "=========="))); reflexivity.
Qed.

Lemma decision_iff (exit_code : Z) (output : string) :
  (exit_code =? 0)%Z || negb (is_npos (find output "==========")) = true <->
  exit_code = 0%Z \/ contains output "==========".
Proof.
  rewrite orb_true_iff, Z.eqb_eq, negb_true_iff, is_npos_find. reflexivity.
Qed.

End ClassifierFacts.

(** C1: for every exit code and captured output the final step of
    [solve_flatzinc_nif] answers [{ok, Output}] when the exit code is 0 or
    the output contains the ten-character terminator, and [{error, Output}]
    otherwise; a non-zero exit with the terminator is therefore [ok].  The
    second component is the output marshalled by [make_binary], which is
    the binary of the output whenever the host can allocate it. *)
Theorem solve_result_classifies (w : world) (exit_code : Z) (output : string) :
  (exit_code = 0%Z \/ Str.contains output "==========" ->
   Bridge.solve_result w exit_code output
   = TTuple [TAtom "ok"; Bridge.make_binary w output]) /\
  (~ (exit_code = 0%Z \/ Str.contains output "==========") ->
   Bridge.solve_result w exit_code output
   = TTuple [TAtom "error"; Bridge.make_binary w output]) /\
  (w_alloc_binary w (String.length output) <> None ->
   Bridge.make_binary w output = TBinary output).
Proof.
  rewrite ClassifierFacts.solve_result_tag.
  pose proof (ClassifierFacts.decision_iff exit_code output) as Hd.
  destruct ((exit_code =? 0)%Z || _) eqn:E.
  - split; [reflexivity |]. split; [| apply MarshalFacts.make_binary_allocated].
    intros Hn. exfalso. apply Hn, Hd. reflexivity.
  - split; [| split; [reflexivity | apply MarshalFacts.make_binary_allocated]].
    intros Hc. apply Hd in Hc. discriminate.
Qed.

(** A solver that exits with code 1 after printing a solution block. *)
Lemma solve_result_classifies_witness :
  Bridge.solve_result (Sample.posix 256 Sample.sat_output true) 1 Sample.sat_output
  = TTuple [TAtom "ok"; TBinary Sample.sat_output].
Proof.
  destruct (solve_result_classifies (Sample.posix 256 Sample.sat_output true) 1
              Sample.sat_output) as (Hok & _ & Hbin).
  rewrite Hok, Hbin.
  - reflexivity.
  - simpl. discriminate.
  - right. exists ("x = 2;" +:+ Str.nl +:+ "----------" +:+ Str.nl), Str.nl. reflexivity.
Defined.

(** ** [solve_flatzinc_nif] *)

Module SolveFacts.
Import Str StrFacts MarshalFacts.

Lemma error_atom_tagged (reason : string) : Bridge.tagged (Bridge.error_atom reason).
Proof. exists "error", (TAtom reason). split; [reflexivity | now right]. Qed.

Lemma error_string_tagged (reason : string) : Bridge.tagged (Bridge.error_string reason).
Proof. exists "error", (Enif.make_string reason). split; [reflexivity | now right]. Qed.

Lemma solve_result_tagged (w : world) (exit_code : Z) (output : string) :
  Bridge.tagged (Bridge.solve_result w exit_code output).
Proof.
  rewrite ClassifierFacts.solve_result_tag.
  eexists _, _. split; [reflexivity |].
  destruct (_ || _); [now left | now right].
Qed.

(** The second argument is read into [options_json] and never used. *)
Lemma solve_ignores_options (pf : platform) (w : world) (argv0 o1 o2 : term) (st : state) :
  Bridge.solve_flatzinc_nif pf w [argv0; o1] st
  = Bridge.solve_flatzinc_nif pf w [argv0; o2] st.
Proof. reflexivity. Qed.

Lemma execute_command_log (pf : platform) (w : world) (command : string) (st : state) :
  shell_log (snd (Bridge.execute_command pf w command st))
  = (shell_log st ++ [Bridge.shell_line pf command])%list.
Proof.
  unfold Bridge.execute_command.
  destruct (w_popen w _ _) as [pipe|]; [| reflexivity].
  destruct (child_status pipe =? -1)%Z; [reflexivity |].
  destruct pf; reflexivity.
Qed.

(** Every way through [solve_flatzinc_nif] once the scratch file has a
    name: the result is tagged and the name is free again. *)
Lemma solve_after_create (pf : platform) (w : world) (payload : string) (argv1 : term)
    (st : state) (temp_file : string) :
  fst (Bridge.create_temp_file pf w "chuffed_" ".fzn" (files st)) = Some temp_file ->
  let r := Bridge.solve_flatzinc_nif pf w [TBinary payload; argv1] st in
  Bridge.tagged (fst r) /\ files (snd r) !! temp_file = None.
Proof.
  intros Hc r. subst r. unfold Bridge.solve_flatzinc_nif.
  rewrite get_binary_binary.
  destruct (Bridge.create_temp_file pf w "chuffed_" ".fzn" (files st)) as [[p|] fs1];
    simpl in Hc; [| discriminate].
  injection Hc as ->.
  destruct (Os.ofstream_open w temp_file fs1) as [fs2|].
  2: { split; [apply error_string_tagged | apply lookup_delete_eq]. }
  destruct (Os.ofstream_write_close w temp_file payload fs2) as [[|] fs3]; cbn [negb].
  2: { split; [apply error_string_tagged | apply lookup_delete_eq]. }
  destruct (Bridge.execute_command pf w _ _) as [[[output exit_code]|] st4].
  - split; [apply solve_result_tagged | apply lookup_delete_eq].
  - split; [apply error_string_tagged | apply lookup_delete_eq].
Qed.

End SolveFacts.

(** C2: whenever the scratch file was created, [solve_flatzinc_nif] answers
    with a tagged tuple and the scratch path no longer names a file in the
    state it returns; the statement covers every outcome of opening,
    writing, spawning, waiting and of the solver's exit status. *)
Theorem scratch_file_removed (pf : platform) (w : world) (payload : string) (argv1 : term)
    (st : state) (temp_file : string) :
  fst (Bridge.create_temp_file pf w "chuffed_" ".fzn" (files st)) = Some temp_file ->
  Bridge.tagged (fst (Bridge.solve_flatzinc_nif pf w [TBinary payload; argv1] st)) /\
  files (snd (Bridge.solve_flatzinc_nif pf w [TBinary payload; argv1] st)) !! temp_file
  = None.
Proof. intros H. exact (SolveFacts.solve_after_create pf w payload argv1 st temp_file H). Qed.

(** The unsatisfiable run on the POSIX sample system. *)
Lemma scratch_file_removed_witness :
  Bridge.tagged
    (fst (Bridge.solve_flatzinc_nif Posix (Sample.posix 256 Sample.unsat_output true)
            [TBinary Sample.payload; TBinary "{}"] Sample.start)) /\
  files
    (snd (Bridge.solve_flatzinc_nif Posix (Sample.posix 256 Sample.unsat_output true)
            [TBinary Sample.payload; TBinary "{}"] Sample.start)) !! Sample.scratch
  = None.
Proof.
  apply (scratch_file_removed Posix (Sample.posix 256 Sample.unsat_output true)
           Sample.payload (TBinary "{}") Sample.start Sample.scratch).
  vm_compute. reflexivity.
Defined.

(** C6: a first argument that is not a binary is answered with
    [{error, invalid_flatzinc}] and the state is returned as it was: no
    file is created, removed or changed and nothing is spawned. *)
Theorem non_binary_payload_rejected (pf : platform) (w : world) (argv0 argv1 : term)
    (st : state) :
  Bridge.get_binary argv0 = None ->
  Bridge.solve_flatzinc_nif pf w [argv0; argv1] st
  = (TTuple [TAtom "error"; TAtom "invalid_flatzinc"], st).
Proof.
  intros H. unfold Bridge.solve_flatzinc_nif. rewrite H. reflexivity.
Qed.

Lemma non_binary_payload_rejected_witness :
  Bridge.solve_flatzinc_nif Posix (Sample.posix 0 Sample.sat_output true)
    [TInt 42; TBinary "{}"] Sample.start
  = (TTuple [TAtom "error"; TAtom "invalid_flatzinc"], Sample.start).
Proof.
  apply (non_binary_payload_rejected Posix (Sample.posix 0 Sample.sat_output true)
           (TInt 42) (TBinary "{}") Sample.start).
  reflexivity.
Defined.

(** C10: for every payload and every two second arguments,
    [solve_flatzinc_nif] returns the same term and the same state, hence
    the same files and the same lines handed to the shell. *)
Theorem options_never_observed (pf : platform) (w : world) (argv0 options1 options2 : term)
    (st : state) :
  Bridge.solve_flatzinc_nif pf w [argv0; options1] st
  = Bridge.solve_flatzinc_nif pf w [argv0; options2] st /\
  shell_log (snd (Bridge.solve_flatzinc_nif pf w [argv0; options1] st))
  = shell_log (snd (Bridge.solve_flatzinc_nif pf w [argv0; options2] st)).
Proof.
  now rewrite (SolveFacts.solve_ignores_options pf w argv0 options1 options2 st).
Qed.

(** ** The command line and the exit code *)

Module CommandFacts.
Import Str StrFacts MarshalFacts SolveFacts.

(** What [solve_flatzinc_nif] adds to the shell log. *)
Lemma solve_shell_log (pf : platform) (w : world) (argv0 argv1 : term) (st : state) :
  shell_log (snd (Bridge.solve_flatzinc_nif pf w [argv0; argv1] st)) = shell_log st \/
  exists temp_file,
    fst (Bridge.create_temp_file pf w "chuffed_" ".fzn" (files st)) = Some temp_file /\
    shell_log (snd (Bridge.solve_flatzinc_nif pf w [argv0; argv1] st))
    = (shell_log st ++ [Bridge.shell_line pf (Bridge.solver_command pf temp_file)])%list.
Proof.
  unfold Bridge.solve_flatzinc_nif.
  destruct (Bridge.get_binary argv0) as [payload|]; [| now left].
  destruct (Bridge.create_temp_file pf w "chuffed_" ".fzn" (files st)) as [[p|] fs1];
    [| now left].
  destruct (Os.ofstream_open w p fs1) as [fs2|]; [| now left].
  destruct (Os.ofstream_write_close w p payload fs2) as [[|] fs3]; cbn [negb];
    [| now left].
  right. exists p. split; [reflexivity |].
  pose proof (execute_command_log pf w (Bridge.solver_command pf p) (set_files st fs3)) as H.
  destruct (Bridge.execute_command pf w _ _) as [[[output exit_code]|] st4];
    simpl in *; exact H.
Qed.

(** When the file is written, the result is the classifier's answer for
    what [execute_command] returned. *)
Lemma solve_reaches_classifier (pf : platform) (w : world) (payload : string)
    (argv1 : term) (st : state) (temp_file output : string) (exit_code : Z) :
  fst (Bridge.create_temp_file pf w "chuffed_" ".fzn" (files st)) = Some temp_file ->
  w_open w temp_file = true ->
  w_write w temp_file payload = WriteComplete ->
  fst (Bridge.execute_command pf w (Bridge.solver_command pf temp_file)
         (set_files st
            (<[temp_file := payload]>
               (<[temp_file := EmptyString]>
                  (snd (Bridge.create_temp_file pf w "chuffed_" ".fzn" (files st)))))))
  = Some (output, exit_code) ->
  fst (Bridge.solve_flatzinc_nif pf w [TBinary payload; argv1] st)
  = Bridge.solve_result w exit_code output.
Proof.
  intros Hc Ho Hw He. unfold Bridge.solve_flatzinc_nif.
  rewrite get_binary_binary.
  destruct (Bridge.create_temp_file pf w "chuffed_" ".fzn" (files st)) as [[p|] fs1];
    simpl in Hc; [| discriminate].
  injection Hc as ->. simpl in He.
  unfold Os.ofstream_open, Os.ofstream_write_close. rewrite Ho, Hw. cbn [negb].
  destruct (Bridge.execute_command pf w _ _) as [[[o e]|] st4]; simpl in He;
    [| discriminate].
  injection He as -> ->. reflexivity.
Qed.

Lemma execute_command_posix (w : world) (command : string) (st : state)
    (output : string) (exit_code : Z) :
  fst (Bridge.execute_command Posix w command st) = Some (output, exit_code) ->
  exists pipe,
    w_popen w (command +:+ " 2>&1") (files st) = Some pipe /\
    child_status pipe <> (-1)%Z /\
    output = Os.read_pipe (child_output pipe) /\
    exit_code = Os.WEXITSTATUS (child_status pipe).
Proof.
  unfold Bridge.execute_command, Bridge.shell_line.
  destruct (w_popen w _ _) as [pipe|]; [| discriminate].
  destruct (child_status pipe =? -1)%Z eqn:E; [discriminate |].
  simpl. intros [= <- <-]. exists pipe.
  apply Z.eqb_neq in E. auto.
Qed.

End CommandFacts.

(** C5, as the code has it: the second argument is read into the options
    string, which is the literal [{}] when the argument is not a binary and
    the binary's bytes otherwise; the line handed to the shell is built from
    the scratch path alone, so a call either spawns nothing or spawns
    exactly [chuffed <scratch path>] with the redirection appended. *)
Theorem options_defaulted_not_forwarded (pf : platform) (w : world) (argv0 argv1 : term)
    (st : state) :
  (Bridge.get_binary argv1 = None -> Bridge.options_of argv1 = "{}") /\
  (forall d, argv1 = TBinary d -> Bridge.options_of argv1 = d) /\
  (shell_log (snd (Bridge.solve_flatzinc_nif pf w [argv0; argv1] st)) = shell_log st \/
   exists temp_file,
     fst (Bridge.create_temp_file pf w "chuffed_" ".fzn" (files st)) = Some temp_file /\
     shell_log (snd (Bridge.solve_flatzinc_nif pf w [argv0; argv1] st))
     = (shell_log st ++ [Bridge.shell_line pf (Bridge.solver_command pf temp_file)])%list).
Proof.
  split; [| split].
  - intros H. unfold Bridge.options_of. now rewrite H.
  - intros d ->. unfold Bridge.options_of. now rewrite MarshalFacts.get_binary_binary.
  - apply CommandFacts.solve_shell_log.
Qed.

Lemma options_defaulted_not_forwarded_witness :
  Bridge.options_of (TAtom "nil") = "{}".
Proof.
  apply (proj1 (options_defaulted_not_forwarded Posix
                  (Sample.posix 0 Sample.sat_output true)
                  (TBinary Sample.payload) (TAtom "nil") Sample.start)).
  reflexivity.
Defined.

(** C5 as stated fails: two different option blobs give the same shell
    line, and no choice of inputs makes the lines differ. *)
Lemma options_do_not_reach_command_line :
  shell_log (snd (Bridge.solve_flatzinc_nif Posix (Sample.posix 0 Sample.sat_output true)
                    [TBinary Sample.payload; TBinary "{}"] Sample.start))
  = ["chuffed /tmp/chuffed_Ab3xYz.fzn 2>&1"] /\
  shell_log (snd (Bridge.solve_flatzinc_nif Posix (Sample.posix 0 Sample.sat_output true)
                    [TBinary Sample.payload; TBinary "--time-out 1000 -f"] Sample.start))
  = ["chuffed /tmp/chuffed_Ab3xYz.fzn 2>&1"] /\
  ~ (exists pf w argv0 options1 options2 st,
        shell_log (snd (Bridge.solve_flatzinc_nif pf w [argv0; options1] st))
        <> shell_log (snd (Bridge.solve_flatzinc_nif pf w [argv0; options2] st))).
Proof.
  split; [vm_compute; reflexivity |]. split; [vm_compute; reflexivity |].
  intros (pf & w & argv0 & o1 & o2 & st & H). apply H.
  now rewrite (SolveFacts.solve_ignores_options pf w argv0 o1 o2 st).
Qed.




(** C9 at the failing input: the solver succeeds and the host cannot
    allocate the result binary; the caller receives the tag [ok] around the
    atom [error]. *)
Theorem allocation_failure_is_tagged_ok :
  fst (Bridge.solve_flatzinc_nif Posix (Sample.posix 0 Sample.sat_output false)
         [TBinary Sample.payload; TBinary "{}"] Sample.start)
  = TTuple [TAtom "ok"; TAtom "error"].
Proof. vm_compute. reflexivity. Qed.

(** ** Scratch-file names *)

Module TempFileFacts.
Import Str StrFacts.







(** The prefix argument plays no part in the Windows branch. *)
Lemma create_temp_file_win32_prefix (w : world) (prefix1 prefix2 suffix : string)
    (fs : gmap string string) :
  Bridge.create_temp_file Win32 w prefix1 suffix fs
  = Bridge.create_temp_file Win32 w prefix2 suffix fs.
Proof. reflexivity. Qed.

(** With a strict [mkstemp] the template of the POSIX branch, whose six X
    are followed by the suffix, is refused, and [solve_flatzinc_nif]
    stops at its first error. *)
Lemma create_temp_file_strict_mkstemp (w : world) (fs : gmap string string) :
  Os.strict_mkstemp w ->
  Bridge.create_temp_file Posix w "chuffed_" ".fzn" fs = (None, fs).
Proof.
  intros H. unfold Bridge.create_temp_file, Os.mkstemp.
  now rewrite (H ("/tmp/" +:+ "chuffed_" +:+ "XXXXXX" +:+ ".fzn") eq_refl).
Qed.

End TempFileFacts.

(** ** The placeholder of the POSIX template *)

Module PlaceholderFacts.
Import Str StrFacts.






End PlaceholderFacts.




(** ** Solver handles *)

Module HandleFacts.
Import Handle.

Lemma get_resource_handle (rt : runtime) (t : term) :
  get_resource rt t <> None <-> is_handle rt t.
Proof.
  unfold get_resource, is_handle. split.
  - destruct t; try congruence.
    destruct (heap rt !! id) as [r|] eqn:E; [| congruence].
    case_bool_decide; [| congruence].
    intros _. exists id, r. auto.
  - intros (id & r & -> & Hr & Hty). rewrite Hr.
    case_bool_decide; congruence.
Qed.

Lemma destructor_idempotent (obj : ChuffedSolver) :
  chuffed_solver_destructor (chuffed_solver_destructor obj)
  = chuffed_solver_destructor obj.
Proof. unfold chuffed_solver_destructor. destruct obj as [p [|]]; reflexivity. Qed.

Lemma destructor_inert (obj : ChuffedSolver) :
  initialized obj = false -> chuffed_solver_destructor obj = obj.
Proof. unfold chuffed_solver_destructor. now intros ->. Qed.

(** What [create_solver_nif] leaves in the heap: one object of the
    registered type, uninitialised, referenced by the returned term
    only. *)
Lemma create_solver_allocates (rt : runtime) :
  can_alloc_resource rt = true ->
  fst (create_solver_nif rt []) = TTuple [TAtom "ok"; TResource (next_addr rt)] /\
  heap (snd (create_solver_nif rt [])) !! next_addr rt
  = Some {| res_type := chuffed_solver_type rt;
            res_obj := {| solver := None; initialized := false |};
            res_refs := 1 |} /\
  chuffed_solver_type (snd (create_solver_nif rt [])) = chuffed_solver_type rt.
Proof.
  intros Ha. unfold create_solver_nif, alloc_resource. rewrite Ha.
  unfold make_resource, write_obj, release_resource; cbn [fst snd heap set_heap].
  rewrite !lookup_alter_eq, lookup_insert_eq. cbn.
  split; [reflexivity |]. split; [| reflexivity].
  apply lookup_insert_eq.
Qed.

Lemma create_then_destroy (rt : runtime) :
  can_alloc_resource rt = true ->
  destroy_solver_nif (snd (create_solver_nif rt [])) [TResource (next_addr rt)]
  = (TAtom "ok", snd (create_solver_nif rt [])).
Proof.
  intros Ha. destruct (create_solver_allocates rt Ha) as (_ & Hh & Hty).
  unfold destroy_solver_nif, get_resource. rewrite Hh, Hty. cbn [res_type].
  case_bool_decide; [reflexivity | congruence].
Qed.

End HandleFacts.

(** C8, as the code has it: [destroy_solver_nif] answers
    [{error, invalid_resource}] when its argument is not a live resource of
    the registered type; otherwise it answers [ok] and leaves the runtime
    exactly as it was, so the handle stays valid, a repeated call answers
    [ok] again, and the object is released only when the runtime drops the
    term.  The destructor is idempotent, and does nothing to an object whose
    [initialized] flag is false. *)
Theorem destroy_solver_checks_only (rt : runtime) (argv0 : term) (obj : ChuffedSolver) :
  (~ Handle.is_handle rt argv0 ->
   Handle.destroy_solver_nif rt [argv0]
   = (TTuple [TAtom "error"; TAtom "invalid_resource"], rt)) /\
  (Handle.is_handle rt argv0 ->
   Handle.destroy_solver_nif rt [argv0] = (TAtom "ok", rt) /\
   Handle.destroy_solver_nif (snd (Handle.destroy_solver_nif rt [argv0])) [argv0]
   = (TAtom "ok", rt)) /\
  Handle.chuffed_solver_destructor (Handle.chuffed_solver_destructor obj)
  = Handle.chuffed_solver_destructor obj /\
  (initialized obj = false -> Handle.chuffed_solver_destructor obj = obj).
Proof.
  pose proof (HandleFacts.get_resource_handle rt argv0) as Hh.
  split; [| split; [| split]].
  - intros Hn. unfold Handle.destroy_solver_nif.
    destruct (Handle.get_resource rt argv0); [| reflexivity].
    exfalso. apply Hn, Hh. discriminate.
  - intros Hy. apply Hh in Hy.
    assert (H1 : Handle.destroy_solver_nif rt [argv0] = (TAtom "ok", rt)).
    { unfold Handle.destroy_solver_nif.
      destruct (Handle.get_resource rt argv0); [reflexivity | congruence]. }
    split; [exact H1 |]. rewrite H1. exact H1.
  - apply HandleFacts.destructor_idempotent.
  - apply HandleFacts.destructor_inert.
Qed.

Lemma destroy_solver_checks_only_witness :
  Handle.destroy_solver_nif Sample.one_handle [TResource 0]
  = (TAtom "ok", Sample.one_handle) /\
  Handle.destroy_solver_nif
    (snd (Handle.destroy_solver_nif Sample.one_handle [TResource 0])) [TResource 0]
  = (TAtom "ok", Sample.one_handle).
Proof.
  apply (proj1 (proj2 (destroy_solver_checks_only Sample.one_handle (TResource 0)
                         {| solver := None; initialized := false |}))).
  exists 0, {| res_type := Some "ChuffedSolver";
               res_obj := {| solver := None; initialized := false |};
               res_refs := 1 |}.
  split; [reflexivity |]. split; [vm_compute; reflexivity | reflexivity].
Defined.

(** C8 as stated fails where it says the handle is released: after a
    successful [destroy_solver_nif] the object is still in the heap with
    the reference it had, the destructor has not run, and the same term is
    accepted again. *)
Lemma destroy_solver_releases_nothing :
  fst (Handle.destroy_solver_nif Sample.one_handle [TResource 0]) = TAtom "ok" /\
  Handle.ref_count Sample.one_handle 0 = 1 /\
  Handle.ref_count (snd (Handle.destroy_solver_nif Sample.one_handle [TResource 0])) 0 = 1 /\
  finalized (snd (Handle.destroy_solver_nif Sample.one_handle [TResource 0])) = [] /\
  Handle.get_resource (snd (Handle.destroy_solver_nif Sample.one_handle [TResource 0]))
    (TResource 0)
  = Some 0.
Proof. repeat split; vm_compute; reflexivity. Qed.

(** ** The standalone driver *)

Module DriverFacts.
Import Str StrFacts Driver.

Lemma read_lines_grows (fuel : nat) (stream acc : string) :
  acc <> EmptyString -> read_lines fuel stream acc <> EmptyString.
Proof.
  revert stream acc; induction fuel as [|fuel IH]; intros stream acc H; [exact H |].
  simpl. destruct (getline stream) as [[line rest]|]; [| exact H].
  apply IH. destruct acc; [congruence | discriminate].
Qed.

(** Only an empty input leaves [flatzinc_content] empty. *)
Lemma read_stdin_empty (stdin : string) :
  read_stdin stdin = EmptyString <-> stdin = EmptyString.
Proof.
  split.
  - destruct stdin as [|a s]; [reflexivity |]. intros H. exfalso.
    unfold read_stdin in H. cbn [read_lines getline] in H.
    destruct (getline_go (String a s)) as [line rest].
    assert (Hne : read_lines (String.length (String a s)) rest
                    (EmptyString +:+ (line +:+ nl)) <> EmptyString).
    { apply read_lines_grows. destruct line; discriminate. }
    destruct (read_lines _ rest _) as [|b t]; [congruence |].
    destruct (negb _ && negb _); discriminate.
  - intros ->. reflexivity.
Qed.

Lemma failure_not_ok (reason : string) :
  exit_status (failure reason) = 1%Z /\ ~ ok_written (failure reason).
Proof. split; [reflexivity |]. intros [rest H]. discriminate. Qed.

Lemma success_ok (solution : string) :
  exit_status (success solution) = 0%Z /\ ok_written (success solution).
Proof. split; [reflexivity |]. exists solution. reflexivity. Qed.

(** Every run ends in [failure] or in [success]. *)
Lemma main_cases (c : chuffed) (stdin : string) :
  (exists reason, main c stdin = failure reason) \/
  (exists solution, main c stdin = success solution).
Proof.
  unfold main.
  destruct (Str.empty (read_stdin stdin)); [left; eauto |].
  destruct (parseOptions c) as [[what|]|]; [left; simpl; eauto | left; simpl; eauto |].
  destruct (fz_solve c _) as [[what|]|[[|] errors]];
    [left; simpl; eauto | left; simpl; eauto | | left; simpl; eauto].
  cbn [negb].
  destruct (engine_solve c _) as [[what|]|[status solution]];
    [left; simpl; eauto | left; simpl; eauto |].
  destruct status; try (left; eauto; fail); try (right; eauto; fail);
    destruct (Str.empty solution); (left; eauto; fail) || (right; eauto).
Qed.

End DriverFacts.

(** C3: for every run of the driver,
    - an empty input gives [error], [No FlatZinc content provided] on the
      error stream, nothing on the output stream, and exit status 1;
    - when the solver is reached and ends with [RES_SAT], the output
      stream holds [ok], a newline and the captured output;
    - [RES_LUN] and [RES_GUN] give [error], [UNSATISFIABLE] on the error
      stream;
    - any other status gives [error], [No solution found] when nothing was
      captured and the [ok] block otherwise;
    - the exit status is 0 exactly when an [ok] line was written. *)
Theorem driver_reports (c : Driver.chuffed) (stdin errors solution : string)
    (status : Driver.RESULT) :
  (stdin = EmptyString ->
   Driver.main c stdin
   = {| Driver.out := EmptyString;
        Driver.err := "error" +:+ Str.nl +:+ "No FlatZinc content provided" +:+ Str.nl;
        Driver.exit_status := 1 |}) /\
  (stdin <> EmptyString ->
   Driver.parseOptions c = None ->
   Driver.fz_solve c (Driver.read_stdin stdin) = inr (true, errors) ->
   Driver.engine_solve c (Driver.read_stdin stdin) = inr (status, solution) ->
   Driver.main c stdin
   = match status with
     | Driver.RES_SAT =>
         {| Driver.out := "ok" +:+ Str.nl +:+ solution;
            Driver.err := EmptyString;
            Driver.exit_status := 0 |}
     | Driver.RES_LUN | Driver.RES_GUN =>
         {| Driver.out := EmptyString;
            Driver.err := "error" +:+ Str.nl +:+ "UNSATISFIABLE" +:+ Str.nl;
            Driver.exit_status := 1 |}
     | _ =>
         if Str.empty solution
         then {| Driver.out := EmptyString;
                 Driver.err := "error" +:+ Str.nl +:+ "No solution found" +:+ Str.nl;
                 Driver.exit_status := 1 |}
         else {| Driver.out := "ok" +:+ Str.nl +:+ solution;
                 Driver.err := EmptyString;
                 Driver.exit_status := 0 |}
     end) /\
  (Driver.exit_status (Driver.main c stdin) = 0%Z <-> Driver.ok_written (Driver.main c stdin)).
Proof.
  split; [| split].
  - intros ->. reflexivity.
  - intros Hne Hp Hf He. unfold Driver.main.
    destruct (Str.empty (Driver.read_stdin stdin)) eqn:E.
    + apply (proj1 (StrFacts.empty_iff _)) in E.
      apply (proj1 (DriverFacts.read_stdin_empty _)) in E. congruence.
    + rewrite Hp, Hf, He. cbn [negb]. destruct status; reflexivity.
  - destruct (DriverFacts.main_cases c stdin) as [[reason ->]|[sol ->]].
    + destruct (DriverFacts.failure_not_ok reason) as [H1 H2].
      rewrite H1. split; [discriminate | intros H; destruct (H2 H)].
    + destruct (DriverFacts.success_ok sol) as [H1 H2].
      rewrite H1. split; auto.
Qed.

(** An unknown status with a captured solution is reported as [ok]. *)
Lemma driver_reports_witness :
  Driver.main (Sample.engine Driver.RES_UNK Sample.sat_output) Sample.payload
  = {| Driver.out := "ok" +:+ Str.nl +:+ Sample.sat_output;
       Driver.err := EmptyString;
       Driver.exit_status := 0 |}.
Proof.
  apply (proj1 (proj2 (driver_reports (Sample.engine Driver.RES_UNK Sample.sat_output)
                         Sample.payload EmptyString Sample.sat_output Driver.RES_UNK))).
  - discriminate.
  - reflexivity.
  - reflexivity.
  - reflexivity.
Defined.

(** * Further properties of the bridge *)

(** ** Lists of binaries *)

Module ListFacts.
Import MarshalFacts.

Lemma loop_binaries (l : list string) (fuel : nat) (acc : list string) :
  length l < fuel ->
  Bridge.get_string_list_loop fuel (TList (map TBinary l)) acc = Some (acc ++ l)%list.
Proof.
  revert fuel acc; induction l as [|d l IH]; intros fuel acc Hlen.
  - destruct fuel; [simpl in Hlen; lia |]. simpl. now rewrite List.app_nil_r.
  - destruct fuel as [|fuel]; [simpl in Hlen; lia |].
    cbn [Bridge.get_string_list_loop map Enif.get_list_cell].
    rewrite get_binary_binary, IH by (simpl in Hlen; lia).
    now rewrite <- List.app_assoc.
Qed.

Lemma loop_rejects (elems : list term) (fuel : nat) (acc : list string) :
  length elems < fuel ->
  (exists t, In t elems /\ Bridge.get_binary t = None) ->
  Bridge.get_string_list_loop fuel (TList elems) acc = None.
Proof.
  revert fuel acc; induction elems as [|head tail IH]; intros fuel acc Hlen (t & Hin & Ht).
  - destruct Hin.
  - destruct fuel as [|fuel]; [simpl in Hlen; lia |].
    cbn [Bridge.get_string_list_loop Enif.get_list_cell].
    destruct (Bridge.get_binary head) as [str|] eqn:E; [| reflexivity].
    apply IH; [simpl in Hlen; lia |].
    destruct Hin as [-> | Hin]; [congruence |]. eauto.
Qed.

End ListFacts.

(** X1: [get_string_list] applied to a list of binaries returns their
    contents, in order; applied to a term that is not a list it succeeds
    with no strings at all. *)
Theorem get_string_list_of_binaries (l : list string) (t : term) :
  Bridge.get_string_list (TList (map TBinary l)) = Some l /\
  ((forall elems, t <> TList elems) -> Bridge.get_string_list t = Some []).
Proof.
  split.
  - unfold Bridge.get_string_list.
    rewrite ListFacts.loop_binaries by (rewrite length_map; lia). reflexivity.
  - intros H. destruct t; try reflexivity. now destruct (H elems).
Qed.

Lemma get_string_list_of_binaries_witness :
  Bridge.get_string_list (TAtom "nil") = Some [].
Proof.
  apply (proj2 (get_string_list_of_binaries [] (TAtom "nil"))).
  intros elems H. discriminate H.
Defined.

(** X2: [get_string_list] fails as soon as the list holds one element that
    is not a binary, wherever it stands. *)
Theorem get_string_list_rejects_non_binary (elems : list term) (t : term) :
  In t elems ->
  Bridge.get_binary t = None ->
  Bridge.get_string_list (TList elems) = None.
Proof.
  intros Hin Ht. unfold Bridge.get_string_list.
  apply ListFacts.loop_rejects; [lia | eauto].
Qed.

Lemma get_string_list_rejects_non_binary_witness :
  Bridge.get_string_list (TList [TBinary "a"; TBinary "b"; TInt 7]) = None.
Proof.
  apply (get_string_list_rejects_non_binary [TBinary "a"; TBinary "b"; TInt 7] (TInt 7)).
  - simpl. auto.
  - reflexivity.
Defined.

(** X3: marshalling round trips.  When the host can allocate, reading back
    the binary built from a string gives the string, and rebuilding a
    binary from what was read off a term gives that term; when it cannot,
    what [make_binary] returns is not a binary. *)
Theorem marshalling_round_trip (w : world) (str : string) (t : term) :
  (w_alloc_binary w (String.length str) <> None ->
   Bridge.get_binary (Bridge.make_binary w str) = Some str) /\
  (w_alloc_binary w (String.length str) <> None ->
   Bridge.get_binary t = Some str -> Bridge.make_binary w str = t) /\
  (w_alloc_binary w (String.length str) = None ->
   Bridge.get_binary (Bridge.make_binary w str) = None).
Proof.
  split; [| split].
  - intros H. rewrite MarshalFacts.make_binary_allocated by exact H.
    apply MarshalFacts.get_binary_binary.
  - intros H Ht. rewrite MarshalFacts.make_binary_allocated by exact H.
    destruct t; try discriminate Ht.
    rewrite MarshalFacts.get_binary_binary in Ht. congruence.
  - intros H. now rewrite MarshalFacts.make_binary_failed.
Qed.

Lemma marshalling_round_trip_witness :
  Bridge.get_binary (Bridge.make_binary (Sample.posix 0 Sample.sat_output true)
                       Sample.payload)
  = Some Sample.payload.
Proof.
  apply (proj1 (marshalling_round_trip (Sample.posix 0 Sample.sat_output true)
                  Sample.payload (TBinary Sample.payload))).
  simpl. discriminate.
Defined.

(** ** Captured output *)

Module PipeFacts.
Import Str StrFacts Os OsFacts.

Lemma c_str_is_nul_free (s : string) : nul_free (c_str s) = true.
Proof.
  induction s as [|a s IH]; [reflexivity |].
  simpl. destruct (Ascii.eqb a nul) eqn:E; [reflexivity |].
  simpl. now rewrite E, IH.
Qed.

Lemma c_str_length (s : string) : String.length (c_str s) <= String.length s.
Proof.
  induction s as [|a s IH]; [simpl; lia |].
  simpl. destruct (Ascii.eqb a nul); simpl; lia.
Qed.

Lemma read_loop_bounds (fuel : nat) (stream output : string) :
  nul_free output = true ->
  nul_free (read_loop fuel stream output) = true /\
  String.length (read_loop fuel stream output)
  <= String.length output + String.length stream.
Proof.
  revert stream output; induction fuel as [|fuel IH]; intros stream output H.
  - simpl. split; [exact H | lia].
  - destruct stream as [|a s]; [simpl; split; [exact H | lia] |].
    cbn [read_loop].
    destruct (fgets 4095 (String a s)) as [buffer rest] eqn:E.
    pose proof (fgets_split _ _ _ _ E) as Hs.
    assert (Hacc : nul_free (output +:+ c_str buffer) = true).
    { now rewrite nul_free_app, H, c_str_is_nul_free. }
    destruct (IH rest _ Hacc) as [H1 H2]. split; [exact H1 |].
    rewrite Hs. rewrite !app_length in *.
    pose proof (c_str_length buffer). lia.
Qed.

End PipeFacts.

(** X4: whatever the solver writes, the output [execute_command] captures
    contains no NUL byte and is no longer than what was written: each
    chunk read by [fgets] is appended as a C string, so bytes after a NUL
    in a chunk are dropped. *)
Theorem captured_output_is_c_text (stream : string) :
  Str.nul_free (Os.read_pipe stream) = true /\
  String.length (Os.read_pipe stream) <= String.length stream.
Proof.
  unfold Os.read_pipe.
  destruct (PipeFacts.read_loop_bounds (String.length stream) stream EmptyString eq_refl)
    as [H1 H2].
  split; [exact H1 | simpl in H2; exact H2].
Qed.

(** X5: output without NUL bytes is captured exactly as written, whatever
    the length of its lines and whether or not it ends with a newline. *)
Theorem captured_output_verbatim (stream : string) :
  Str.nul_free stream = true -> Os.read_pipe stream = stream.
Proof. apply OsFacts.read_pipe_nul_free. Qed.

Lemma captured_output_verbatim_witness :
  Os.read_pipe Sample.sat_output = Sample.sat_output.
Proof.
  apply (captured_output_verbatim Sample.sat_output). reflexivity.
Defined.

(** ** Spawning the solver *)

Module SpawnFacts.
Import Str StrFacts MarshalFacts.

Lemma execute_command_files (pf : platform) (w : world) (command : string) (st : state) :
  Os.read_only_child w ->
  files (snd (Bridge.execute_command pf w command st)) = files st.
Proof.
  intros Hro. unfold Bridge.execute_command.
  destruct (w_popen w _ _) as [pipe|] eqn:E; [| reflexivity].
  apply Hro in E.
  destruct (child_status pipe =? -1)%Z; [exact E |].
  destruct pf; exact E.
Qed.

(** Where [create_temp_file] leaves the file system: as it was when it
    fails, and as it was apart from the returned path when it succeeds. *)
Lemma create_temp_file_failed (pf : platform) (w : world) (prefix suffix : string)
    (fs : gmap string string) :
  fst (Bridge.create_temp_file pf w prefix suffix fs) = None ->
  snd (Bridge.create_temp_file pf w prefix suffix fs) = fs.
Proof.
  unfold Bridge.create_temp_file, Os.mkstemp, Os.GetTempFileNameA.
  destruct pf.
  - destruct (w_mkstemp w _) as [name|]; [| reflexivity].
    destruct (fs !! name); [reflexivity | discriminate].
  - destruct (w_temp_path w) as [dir|]; [| reflexivity].
    destruct (w_temp_file_name w dir "CHF") as [name|]; [| reflexivity].
    destruct (fs !! name); [reflexivity | discriminate].
Qed.

Lemma create_temp_file_delete (pf : platform) (w : world) (prefix suffix : string)
    (fs : gmap string string) (temp_file : string) :
  fst (Bridge.create_temp_file pf w prefix suffix fs) = Some temp_file ->
  delete temp_file (snd (Bridge.create_temp_file pf w prefix suffix fs))
  = delete temp_file fs.
Proof.
  unfold Bridge.create_temp_file, Os.mkstemp, Os.GetTempFileNameA, Os.remove.
  destruct pf.
  - destruct (w_mkstemp w _) as [name|]; [| discriminate].
    destruct (fs !! name); [discriminate |].
    simpl. intros [= <-]. apply delete_insert_eq.
  - destruct (w_temp_path w) as [dir|]; [| discriminate].
    destruct (w_temp_file_name w dir "CHF") as [name|]; [| discriminate].
    destruct (fs !! name) eqn:E; [discriminate |].
    simpl. intros _. f_equal. now apply delete_insert_id.
Qed.

Lemma create_temp_file_posix_fresh (w : world) (prefix suffix : string)
    (fs : gmap string string) (temp_file : string) :
  fst (Bridge.create_temp_file Posix w prefix suffix fs) = Some temp_file ->
  fs !! temp_file = None.
Proof.
  unfold Bridge.create_temp_file, Os.mkstemp.
  destruct (w_mkstemp w _) as [name|]; [| discriminate].
  destruct (fs !! name) eqn:E; [discriminate |].
  simpl. now intros [= <-].
Qed.

Lemma set_files_same (st : state) : set_files st (files st) = st.
Proof. now destruct st. Qed.

(** The files [solve_flatzinc_nif] leaves when the solver does not touch
    the file system. *)
Lemma solve_files (pf : platform) (w : world) (payload : string) (argv1 : term)
    (st : state) :
  Os.read_only_child w ->
  files (snd (Bridge.solve_flatzinc_nif pf w [TBinary payload; argv1] st))
  = match fst (Bridge.create_temp_file pf w "chuffed_" ".fzn" (files st)) with
    | Some temp_file => delete temp_file (files st)
    | None => files st
    end.
Proof.
  intros Hro. unfold Bridge.solve_flatzinc_nif. rewrite get_binary_binary.
  pose proof (create_temp_file_failed pf w "chuffed_" ".fzn" (files st)) as Hf.
  pose proof (create_temp_file_delete pf w "chuffed_" ".fzn" (files st)) as Hd.
  destruct (Bridge.create_temp_file pf w "chuffed_" ".fzn" (files st)) as [[p|] fs1];
    cbn [fst snd] in *; [| now apply Hf].
  specialize (Hd p eq_refl).
  unfold Os.ofstream_open, Os.ofstream_write_close, Os.remove.
  destruct (w_open w p); [| exact Hd].
  destruct (w_write w p payload) as [|n]; cbn [negb].
  - pose proof (execute_command_files pf w (Bridge.solver_command pf p)
                  (set_files st (<[p := payload]> (<[p := EmptyString]> fs1))) Hro) as He.
    destruct (Bridge.execute_command pf w _ _) as [[[output exit_code]|] st4];
      cbn [fst snd files set_files] in *; rewrite He, !delete_insert_eq; exact Hd.
  - cbn [snd files set_files]. now rewrite !delete_insert_eq.
Qed.

End SpawnFacts.

(** X6: [execute_command] reports failure exactly when [popen] returns no
    pipe or the status returned on closing it is -1, on both platforms; in
    particular a Windows solver whose exit code is -1 counts as a failure
    to execute. *)
Theorem execute_command_fails_iff (pf : platform) (w : world) (command : string)
    (st : state) :
  fst (Bridge.execute_command pf w command st) = None <->
  w_popen w (Bridge.shell_line pf command) (files st) = None \/
  exists pipe,
    w_popen w (Bridge.shell_line pf command) (files st) = Some pipe /\
    child_status pipe = (-1)%Z.
Proof.
  unfold Bridge.execute_command.
  destruct (w_popen w _ _) as [pipe|]; [| simpl; tauto].
  destruct (child_status pipe =? -1)%Z eqn:E.
  - apply Z.eqb_eq in E. simpl. split; [| reflexivity].
    intros _. right. exists pipe. auto.
  - apply Z.eqb_neq in E. split.
    + destruct pf; discriminate.
    + intros [H | (pipe' & [= <-] & H)]; [discriminate | contradiction].
Qed.

(** X7: on Windows the call of [execute_command] made by
    [solve_flatzinc_nif] returns, as its exit code, the value [_pclose]
    returned, unchanged, and that is what the classifier is applied to; the
    line given to the shell is [cmd.exe /c] followed by the quoted command,
    with the scratch path in quotes of its own. *)
Theorem win32_exit_code_is_raw (w : world) (payload : string) (argv1 : term)
    (st : state) (temp_file : string) (pipe : child) :
  fst (Bridge.create_temp_file Win32 w "chuffed_" ".fzn" (files st)) = Some temp_file ->
  w_open w temp_file = true ->
  w_write w temp_file payload = WriteComplete ->
  w_popen w
    ("cmd.exe /c " +:+ Str.dquote +:+ "chuffed " +:+ Str.dquote +:+ temp_file
     +:+ Str.dquote +:+ " 2>&1" +:+ Str.dquote)
    (<[temp_file := payload]>
       (<[temp_file := EmptyString]>
          (snd (Bridge.create_temp_file Win32 w "chuffed_" ".fzn" (files st)))))
  = Some pipe ->
  child_status pipe <> (-1)%Z ->
  fst (Bridge.execute_command Win32 w
         ("chuffed " +:+ Str.dquote +:+ temp_file +:+ Str.dquote)
         (set_files st
            (<[temp_file := payload]>
               (<[temp_file := EmptyString]>
                  (snd (Bridge.create_temp_file Win32 w "chuffed_" ".fzn" (files st)))))))
  = Some (Os.read_pipe (child_output pipe), child_status pipe) /\
  fst (Bridge.solve_flatzinc_nif Win32 w [TBinary payload; argv1] st)
  = Bridge.solve_result w (child_status pipe) (Os.read_pipe (child_output pipe)).
Proof.
  intros Hc Ho Hw Hp Hs.
  assert (He : fst (Bridge.execute_command Win32 w
                      ("chuffed " +:+ Str.dquote +:+ temp_file +:+ Str.dquote)
                      (set_files st
                         (<[temp_file := payload]>
                            (<[temp_file := EmptyString]>
                               (snd (Bridge.create_temp_file Win32 w "chuffed_" ".fzn"
                                       (files st)))))))
               = Some (Os.read_pipe (child_output pipe), child_status pipe)).
  { unfold Bridge.execute_command, Bridge.shell_line. cbn [files set_files].
    replace ("cmd.exe /c " +:+ Str.dquote +:+
             ("chuffed " +:+ Str.dquote +:+ temp_file +:+ Str.dquote) +:+ " 2>&1"
             +:+ Str.dquote)
      with ("cmd.exe /c " +:+ Str.dquote +:+ "chuffed " +:+ Str.dquote +:+ temp_file
            +:+ Str.dquote +:+ " 2>&1" +:+ Str.dquote)
      by (now rewrite !StrFacts.app_assoc).
    rewrite Hp. apply Z.eqb_neq in Hs. rewrite Hs. reflexivity. }
  split; [exact He |].
  apply (CommandFacts.solve_reaches_classifier Win32 w payload argv1 st temp_file);
    assumption.
Qed.

Lemma win32_exit_code_is_raw_witness :
  fst (Bridge.execute_command Win32 (Sample.win32 3 Sample.unsat_output)
         ("chuffed " +:+ Str.dquote +:+ "C:\Temp\CHF1A2B.fzn" +:+ Str.dquote)
         (set_files Sample.start
            (<["C:\Temp\CHF1A2B.fzn" := Sample.payload]>
               (<["C:\Temp\CHF1A2B.fzn" := EmptyString]>
                  (snd (Bridge.create_temp_file Win32 (Sample.win32 3 Sample.unsat_output)
                          "chuffed_" ".fzn" (files Sample.start)))))))
  = Some (Os.read_pipe Sample.unsat_output, 3%Z) /\
  fst (Bridge.solve_flatzinc_nif Win32 (Sample.win32 3 Sample.unsat_output)
         [TBinary Sample.payload; TBinary "{}"] Sample.start)
  = Bridge.solve_result (Sample.win32 3 Sample.unsat_output) 3
      (Os.read_pipe Sample.unsat_output).
Proof.
  apply (win32_exit_code_is_raw (Sample.win32 3 Sample.unsat_output)
           Sample.payload (TBinary "{}") Sample.start "C:\Temp\CHF1A2B.fzn"
           {| child_output := Sample.unsat_output;
              child_status := 3;
              child_files :=
                <["C:\Temp\CHF1A2B.fzn" := Sample.payload]>
                  (<["C:\Temp\CHF1A2B.fzn" := EmptyString]> ∅) |}).
  - vm_compute. reflexivity.
  - reflexivity.
  - reflexivity.
  - vm_compute. reflexivity.
  - discriminate.
Defined.

(** ** Error paths of [solve_flatzinc_nif] *)

(** X8: when no scratch file can be created the call answers
    [{error, "failed_to_create_temp_file"}], the reason being a character
    list, and returns the state as it was: no file is left behind and
    nothing is spawned. *)
Theorem create_failure_reported (pf : platform) (w : world) (payload : string)
    (argv1 : term) (st : state) :
  fst (Bridge.create_temp_file pf w "chuffed_" ".fzn" (files st)) = None ->
  Bridge.solve_flatzinc_nif pf w [TBinary payload; argv1] st
  = (TTuple [TAtom "error"; Enif.make_string "failed_to_create_temp_file"], st).
Proof.
  intros H. unfold Bridge.solve_flatzinc_nif.
  rewrite MarshalFacts.get_binary_binary.
  pose proof (SpawnFacts.create_temp_file_failed pf w "chuffed_" ".fzn" (files st) H) as Hf.
  destruct (Bridge.create_temp_file pf w "chuffed_" ".fzn" (files st)) as [[p|] fs1];
    cbn [fst snd] in *; [discriminate |].
  subst fs1. now rewrite SpawnFacts.set_files_same.
Qed.

Lemma create_failure_reported_witness :
  Bridge.solve_flatzinc_nif Posix (Sample.system None true WriteComplete None)
    [TBinary Sample.payload; TBinary "{}"] Sample.busy
  = (TTuple [TAtom "error"; Enif.make_string "failed_to_create_temp_file"], Sample.busy).
Proof.
  apply (create_failure_reported Posix (Sample.system None true WriteComplete None)
           Sample.payload (TBinary "{}") Sample.busy).
  reflexivity.
Defined.

(** X9: when the scratch file cannot be opened for writing the call
    answers [{error, "failed_to_open_temp_file"}], spawns nothing, and the
    file system it returns is the initial one without the scratch path. *)
Theorem open_failure_reported (pf : platform) (w : world) (payload : string)
    (argv1 : term) (st : state) (temp_file : string) :
  fst (Bridge.create_temp_file pf w "chuffed_" ".fzn" (files st)) = Some temp_file ->
  w_open w temp_file = false ->
  Bridge.solve_flatzinc_nif pf w [TBinary payload; argv1] st
  = (TTuple [TAtom "error"; Enif.make_string "failed_to_open_temp_file"],
     set_files st (delete temp_file (files st))).
Proof.
  intros Hc Ho. unfold Bridge.solve_flatzinc_nif.
  rewrite MarshalFacts.get_binary_binary.
  pose proof (SpawnFacts.create_temp_file_delete pf w "chuffed_" ".fzn" (files st)
                temp_file Hc) as Hd.
  destruct (Bridge.create_temp_file pf w "chuffed_" ".fzn" (files st)) as [[p|] fs1];
    cbn [fst snd] in *; [| discriminate].
  injection Hc as ->.
  unfold Os.ofstream_open, Os.remove. rewrite Ho, Hd. reflexivity.
Qed.

Lemma open_failure_reported_witness :
  Bridge.solve_flatzinc_nif Posix
    (Sample.system (Some Sample.scratch) false WriteComplete None)
    [TBinary Sample.payload; TBinary "{}"] Sample.busy
  = (TTuple [TAtom "error"; Enif.make_string "failed_to_open_temp_file"],
     set_files Sample.busy (delete Sample.scratch (files Sample.busy))).
Proof.
  apply (open_failure_reported Posix
           (Sample.system (Some Sample.scratch) false WriteComplete None)
           Sample.payload (TBinary "{}") Sample.busy Sample.scratch).
  - vm_compute. reflexivity.
  - reflexivity.
Defined.

(** X10: when the payload cannot be written in full the call answers
    [{error, "failed_to_write_temp_file"}], spawns nothing, and the partly
    written scratch file is removed. *)
Theorem write_failure_reported (pf : platform) (w : world) (payload : string)
    (argv1 : term) (st : state) (temp_file : string) (written : nat) :
  fst (Bridge.create_temp_file pf w "chuffed_" ".fzn" (files st)) = Some temp_file ->
  w_open w temp_file = true ->
  w_write w temp_file payload = WriteFailed written ->
  Bridge.solve_flatzinc_nif pf w [TBinary payload; argv1] st
  = (TTuple [TAtom "error"; Enif.make_string "failed_to_write_temp_file"],
     set_files st (delete temp_file (files st))).
Proof.
  intros Hc Ho Hw. unfold Bridge.solve_flatzinc_nif.
  rewrite MarshalFacts.get_binary_binary.
  pose proof (SpawnFacts.create_temp_file_delete pf w "chuffed_" ".fzn" (files st)
                temp_file Hc) as Hd.
  destruct (Bridge.create_temp_file pf w "chuffed_" ".fzn" (files st)) as [[p|] fs1];
    cbn [fst snd] in *; [| discriminate].
  injection Hc as ->.
  unfold Os.ofstream_open, Os.ofstream_write_close, Os.remove.
  rewrite Ho, Hw. cbn [negb]. now rewrite !delete_insert_eq, Hd.
Qed.

Lemma write_failure_reported_witness :
  Bridge.solve_flatzinc_nif Posix
    (Sample.system (Some Sample.scratch) true (WriteFailed 3) None)
    [TBinary Sample.payload; TBinary "{}"] Sample.busy
  = (TTuple [TAtom "error"; Enif.make_string "failed_to_write_temp_file"],
     set_files Sample.busy (delete Sample.scratch (files Sample.busy))).
Proof.
  apply (write_failure_reported Posix
           (Sample.system (Some Sample.scratch) true (WriteFailed 3) None)
           Sample.payload (TBinary "{}") Sample.busy Sample.scratch 3).
  - vm_compute. reflexivity.
  - reflexivity.
  - reflexivity.
Defined.

(** X11: when the solver cannot be spawned, or closing the pipe fails, the
    call answers [{error, "failed_to_execute_chuffed"}]; the shell was
    given exactly one line, and the scratch path names no file in the
    state returned. *)
Theorem execute_failure_reported (pf : platform) (w : world) (payload : string)
    (argv1 : term) (st : state) (temp_file : string) :
  fst (Bridge.create_temp_file pf w "chuffed_" ".fzn" (files st)) = Some temp_file ->
  w_open w temp_file = true ->
  w_write w temp_file payload = WriteComplete ->
  fst (Bridge.execute_command pf w (Bridge.solver_command pf temp_file)
         (set_files st
            (<[temp_file := payload]>
               (<[temp_file := EmptyString]>
                  (snd (Bridge.create_temp_file pf w "chuffed_" ".fzn" (files st)))))))
  = None ->
  fst (Bridge.solve_flatzinc_nif pf w [TBinary payload; argv1] st)
  = TTuple [TAtom "error"; Enif.make_string "failed_to_execute_chuffed"] /\
  shell_log (snd (Bridge.solve_flatzinc_nif pf w [TBinary payload; argv1] st))
  = (shell_log st ++ [Bridge.shell_line pf (Bridge.solver_command pf temp_file)])%list /\
  files (snd (Bridge.solve_flatzinc_nif pf w [TBinary payload; argv1] st)) !! temp_file
  = None.
Proof.
  intros Hc Ho Hw He. unfold Bridge.solve_flatzinc_nif.
  rewrite MarshalFacts.get_binary_binary.
  destruct (Bridge.create_temp_file pf w "chuffed_" ".fzn" (files st)) as [[p|] fs1];
    cbn [fst snd] in *; [| discriminate].
  injection Hc as ->.
  unfold Os.ofstream_open, Os.ofstream_write_close. rewrite Ho, Hw. cbn [negb].
  pose proof (SolveFacts.execute_command_log pf w (Bridge.solver_command pf temp_file)
                (set_files st (<[temp_file := payload]>
                                 (<[temp_file := EmptyString]> fs1)))) as Hl.
  destruct (Bridge.execute_command pf w _ _) as [[[o e]|] st4];
    cbn [fst snd] in *; [discriminate |].
  split; [reflexivity |]. split; [exact Hl | apply lookup_delete_eq].
Qed.

Lemma execute_failure_reported_witness :
  fst (Bridge.solve_flatzinc_nif Posix
         (Sample.system (Some Sample.scratch) true WriteComplete None)
         [TBinary Sample.payload; TBinary "{}"] Sample.busy)
  = TTuple [TAtom "error"; Enif.make_string "failed_to_execute_chuffed"] /\
  shell_log (snd (Bridge.solve_flatzinc_nif Posix
                    (Sample.system (Some Sample.scratch) true WriteComplete None)
                    [TBinary Sample.payload; TBinary "{}"] Sample.busy))
  = ([] ++ [Bridge.shell_line Posix (Bridge.solver_command Posix Sample.scratch)])%list /\
  files (snd (Bridge.solve_flatzinc_nif Posix
                (Sample.system (Some Sample.scratch) true WriteComplete None)
                [TBinary Sample.payload; TBinary "{}"] Sample.busy)) !! Sample.scratch
  = None.
Proof.
  apply (execute_failure_reported Posix
           (Sample.system (Some Sample.scratch) true WriteComplete None)
           Sample.payload (TBinary "{}") Sample.busy Sample.scratch).
  - vm_compute. reflexivity.
  - reflexivity.
  - reflexivity.
  - vm_compute. reflexivity.
Defined.

(** ** What a call leaves in the file system *)

(** X12: on POSIX-like systems a call whose solver does not touch the file
    system returns the file system exactly as it found it, whatever the
    arguments and whichever step fails: the scratch file is the only file
    the bridge creates, and it is always removed. *)
Theorem posix_files_restored (w : world) (argv : list term) (st : state) :
  Os.read_only_child w ->
  files (snd (Bridge.solve_flatzinc_nif Posix w argv st)) = files st.
Proof.
  intros Hro.
  destruct argv as [|argv0 [|argv1 [|extra more]]]; try reflexivity.
  destruct (Bridge.get_binary argv0) as [payload|] eqn:E.
  - destruct argv0; try discriminate E.
    rewrite MarshalFacts.get_binary_binary in E. injection E as ->.
    rewrite (SpawnFacts.solve_files Posix w payload argv1 st Hro).
    destruct (fst (Bridge.create_temp_file Posix w "chuffed_" ".fzn" (files st)))
      as [p|] eqn:Hc; [| reflexivity].
    apply delete_id. now apply SpawnFacts.create_temp_file_posix_fresh in Hc.
  - unfold Bridge.solve_flatzinc_nif. now rewrite E.
Qed.

Lemma posix_files_restored_witness :
  files (snd (Bridge.solve_flatzinc_nif Posix (Sample.posix 256 Sample.unsat_output true)
                [TBinary Sample.payload; TBinary "{}"] Sample.busy))
  = files Sample.busy.
Proof.
  apply (posix_files_restored (Sample.posix 256 Sample.unsat_output true)
           [TBinary Sample.payload; TBinary "{}"] Sample.busy).
  intros line fs pipe H. injection H as <-. reflexivity.
Defined.

(** X13: on Windows the scratch path is a name nothing has reserved, and
    every call that obtains one ends with that path removed: with a solver
    that does not touch the file system, the files returned are the
    initial ones minus the scratch path, so a file that already existed
    under that name is lost. *)
Theorem win32_scratch_path_cleared (w : world) (payload : string) (argv1 : term)
    (st : state) (temp_file : string) :
  Os.read_only_child w ->
  fst (Bridge.create_temp_file Win32 w "chuffed_" ".fzn" (files st)) = Some temp_file ->
  files (snd (Bridge.solve_flatzinc_nif Win32 w [TBinary payload; argv1] st))
  = delete temp_file (files st).
Proof.
  intros Hro Hc. rewrite (SpawnFacts.solve_files Win32 w payload argv1 st Hro).
  now rewrite Hc.
Qed.

Lemma win32_scratch_path_cleared_witness :
  files (snd (Bridge.solve_flatzinc_nif Win32 (Sample.win32 0 Sample.sat_output)
                [TBinary Sample.payload; TBinary "{}"] Sample.stale))
  = delete "C:\Temp\CHF1A2B.fzn" (files Sample.stale).
Proof.
  apply (win32_scratch_path_cleared (Sample.win32 0 Sample.sat_output)
           Sample.payload (TBinary "{}") Sample.stale "C:\Temp\CHF1A2B.fzn").
  - intros line fs pipe H. injection H as <-. reflexivity.
  - vm_compute. reflexivity.
Defined.

(** ** The life of a handle *)

Module LifecycleFacts.
Import Handle HandleFacts.

(** The runtime [create_solver_nif] returns when the allocation succeeds. *)
Lemma create_solver_result (rt : runtime) :
  can_alloc_resource rt = true ->
  create_solver_nif rt []
  = (TTuple [TAtom "ok"; TResource (next_addr rt)],
     {| chuffed_solver_type := chuffed_solver_type rt;
        heap := <[next_addr rt := {| res_type := chuffed_solver_type rt;
                                     res_obj := blank;
                                     res_refs := 1 |}]> (heap rt);
        next_addr := S (next_addr rt);
        finalized := finalized rt;
        can_open_type := can_open_type rt;
        can_alloc_resource := can_alloc_resource rt |}).
Proof.
  intros Ha. unfold create_solver_nif, alloc_resource. rewrite Ha.
  unfold make_resource, write_obj, release_resource; cbn [fst snd heap set_heap].
  rewrite !lookup_alter_eq, lookup_insert_eq. cbn.
  unfold set_heap; cbn. do 2 f_equal.
  apply map_eq. intros i. destruct (decide (i = next_addr rt)) as [-> | Hne].
  - now rewrite !lookup_insert_eq.
  - rewrite lookup_insert_ne, !lookup_alter_ne, !lookup_insert_ne by congruence.
    reflexivity.
Qed.

Lemma destroy_live (rt : runtime) (id : nat) (r : resource) :
  heap rt !! id = Some r ->
  res_type r = chuffed_solver_type rt ->
  destroy_solver_nif rt [TResource id] = (TAtom "ok", rt).
Proof.
  intros Hr Hty. unfold destroy_solver_nif, get_resource. rewrite Hr.
  case_bool_decide; [reflexivity | contradiction].
Qed.

End LifecycleFacts.

(** X14: when the runtime can allocate, [create_solver_nif] answers
    [{ok, Handle}] for a new object that is not initialized, has no solver
    and is referenced once, by the returned term: the release at the end of
    the function does not free it.  Objects already in the heap are
    untouched and no destructor runs.  When the runtime cannot allocate,
    the answer is [{error, allocation_failed}] and nothing changes. *)
Theorem create_solver_makes_inert_handle (rt : runtime) (other : nat) :
  (can_alloc_resource rt = true ->
   fst (Handle.create_solver_nif rt []) = TTuple [TAtom "ok"; TResource (next_addr rt)] /\
   heap (snd (Handle.create_solver_nif rt [])) !! next_addr rt
   = Some {| res_type := chuffed_solver_type rt;
             res_obj := {| solver := None; initialized := false |};
             res_refs := 1 |} /\
   (other <> next_addr rt ->
    heap (snd (Handle.create_solver_nif rt [])) !! other = heap rt !! other) /\
   finalized (snd (Handle.create_solver_nif rt [])) = finalized rt) /\
  (can_alloc_resource rt = false ->
   Handle.create_solver_nif rt []
   = (TTuple [TAtom "error"; TAtom "allocation_failed"], rt)).
Proof.
  split.
  - intros Ha. rewrite (LifecycleFacts.create_solver_result rt Ha). cbn [fst snd heap finalized].
    split; [reflexivity |]. split; [apply lookup_insert_eq |].
    split; [| reflexivity].
    intros Hne. apply lookup_insert_ne. congruence.
  - intros Ha. unfold Handle.create_solver_nif, Handle.alloc_resource. now rewrite Ha.
Qed.

Lemma create_solver_makes_inert_handle_witness :
  fst (Handle.create_solver_nif Sample.loaded []) = TTuple [TAtom "ok"; TResource 0] /\
  heap (snd (Handle.create_solver_nif Sample.loaded [])) !! 0
  = Some {| res_type := Some "ChuffedSolver";
            res_obj := {| solver := None; initialized := false |};
            res_refs := 1 |} /\
  (5 <> 0 ->
   heap (snd (Handle.create_solver_nif Sample.loaded [])) !! 5 = heap Sample.loaded !! 5) /\
  finalized (snd (Handle.create_solver_nif Sample.loaded [])) = [].
Proof.
  apply (proj1 (create_solver_makes_inert_handle Sample.loaded 5)).
  reflexivity.
Defined.

(** X15: two handles created one after the other are different terms, and
    both are accepted by [destroy_solver_nif] afterwards: creating the
    second does not disturb the first. *)
Theorem handles_are_independent (rt : runtime) :
  can_alloc_resource rt = true ->
  exists id1 id2,
    fst (Handle.create_solver_nif rt []) = TTuple [TAtom "ok"; TResource id1] /\
    fst (Handle.create_solver_nif (snd (Handle.create_solver_nif rt [])) [])
    = TTuple [TAtom "ok"; TResource id2] /\
    id1 <> id2 /\
    Handle.destroy_solver_nif
      (snd (Handle.create_solver_nif (snd (Handle.create_solver_nif rt [])) []))
      [TResource id1]
    = (TAtom "ok",
       snd (Handle.create_solver_nif (snd (Handle.create_solver_nif rt [])) [])) /\
    Handle.destroy_solver_nif
      (snd (Handle.create_solver_nif (snd (Handle.create_solver_nif rt [])) []))
      [TResource id2]
    = (TAtom "ok",
       snd (Handle.create_solver_nif (snd (Handle.create_solver_nif rt [])) [])).
Proof.
  intros Ha. exists (next_addr rt), (S (next_addr rt)).
  rewrite (LifecycleFacts.create_solver_result rt Ha). cbn [fst snd].
  rewrite LifecycleFacts.create_solver_result by exact Ha. cbn [fst snd next_addr].
  split; [reflexivity |]. split; [reflexivity |]. split; [lia |]. split.
  - eapply LifecycleFacts.destroy_live.
    + cbn [heap]. rewrite lookup_insert_ne by lia. apply lookup_insert_eq.
    + reflexivity.
  - eapply LifecycleFacts.destroy_live.
    + cbn [heap]. apply lookup_insert_eq.
    + reflexivity.
Qed.

Lemma handles_are_independent_witness :
  exists id1 id2,
    fst (Handle.create_solver_nif Sample.loaded []) = TTuple [TAtom "ok"; TResource id1] /\
    fst (Handle.create_solver_nif (snd (Handle.create_solver_nif Sample.loaded [])) [])
    = TTuple [TAtom "ok"; TResource id2] /\
    id1 <> id2 /\
    Handle.destroy_solver_nif
      (snd (Handle.create_solver_nif (snd (Handle.create_solver_nif Sample.loaded [])) []))
      [TResource id1]
    = (TAtom "ok",
       snd (Handle.create_solver_nif (snd (Handle.create_solver_nif Sample.loaded [])) [])) /\
    Handle.destroy_solver_nif
      (snd (Handle.create_solver_nif (snd (Handle.create_solver_nif Sample.loaded [])) []))
      [TResource id2]
    = (TAtom "ok",
       snd (Handle.create_solver_nif (snd (Handle.create_solver_nif Sample.loaded [])) [])).
Proof.
  apply (handles_are_independent Sample.loaded). reflexivity.
Defined.

(** X16: when the runtime drops the term of a handle that was created and
    never used, the destructor runs once, on an object that is not
    initialized, and leaves it as it is; the object is then freed and the
    other objects in the heap are untouched. *)
Theorem dropped_handle_is_finalized_inert (rt : runtime) (other : nat) :
  can_alloc_resource rt = true ->
  heap (Handle.release_resource (snd (Handle.create_solver_nif rt [])) (next_addr rt))
  !! next_addr rt = None /\
  finalized (Handle.release_resource (snd (Handle.create_solver_nif rt [])) (next_addr rt))
  = (finalized rt ++ [(next_addr rt, {| solver := None; initialized := false |})])%list /\
  (other <> next_addr rt ->
   heap (Handle.release_resource (snd (Handle.create_solver_nif rt [])) (next_addr rt))
   !! other = heap rt !! other).
Proof.
  intros Ha. rewrite (LifecycleFacts.create_solver_result rt Ha). cbn [snd].
  unfold Handle.release_resource. cbn [heap]. rewrite lookup_insert_eq. cbn.
  split; [apply lookup_delete_eq |]. split; [reflexivity |].
  intros Hne. rewrite lookup_delete_ne, lookup_insert_ne by congruence. reflexivity.
Qed.

Lemma dropped_handle_is_finalized_inert_witness :
  heap (Handle.release_resource (snd (Handle.create_solver_nif Sample.loaded [])) 0)
  !! 0 = None /\
  finalized (Handle.release_resource (snd (Handle.create_solver_nif Sample.loaded [])) 0)
  = ([] ++ [(0, {| solver := None; initialized := false |})])%list /\
  (5 <> 0 ->
   heap (Handle.release_resource (snd (Handle.create_solver_nif Sample.loaded [])) 0)
   !! 5 = heap Sample.loaded !! 5).
Proof.
  apply (dropped_handle_is_finalized_inert Sample.loaded 5). reflexivity.
Defined.

(** X17: [load] returns 0 and registers the resource type when the runtime
    accepts it, after which a handle can be created and is accepted by
    [destroy_solver_nif]; it returns 1 and leaves the type unset when the
    runtime refuses.  Either way the heap is not touched. *)
Theorem load_then_create_then_destroy (rt : runtime) :
  (can_open_type rt = true ->
   fst (Handle.load rt) = 0%Z /\
   chuffed_solver_type (snd (Handle.load rt)) = Some "ChuffedSolver" /\
   (can_alloc_resource rt = true ->
    Handle.destroy_solver_nif
      (snd (Handle.create_solver_nif (snd (Handle.load rt)) []))
      [TResource (next_addr rt)]
    = (TAtom "ok", snd (Handle.create_solver_nif (snd (Handle.load rt)) [])))) /\
  (can_open_type rt = false ->
   fst (Handle.load rt) = 1%Z /\ chuffed_solver_type (snd (Handle.load rt)) = None) /\
  heap (snd (Handle.load rt)) = heap rt.
Proof.
  unfold Handle.load. destruct (can_open_type rt) eqn:E; cbn [fst snd].
  - split; [| split; [discriminate | reflexivity]].
    intros _. split; [reflexivity |]. split; [reflexivity |].
    intros Ha. rewrite LifecycleFacts.create_solver_result by exact Ha.
    cbn [fst snd next_addr chuffed_solver_type].
    eapply LifecycleFacts.destroy_live; [apply lookup_insert_eq | reflexivity].
  - split; [discriminate |]. split; [| reflexivity]. intros _. split; reflexivity.
Qed.

Lemma load_then_create_then_destroy_witness :
  fst (Handle.load Sample.fresh_runtime) = 0%Z /\
  chuffed_solver_type (snd (Handle.load Sample.fresh_runtime)) = Some "ChuffedSolver" /\
  (can_alloc_resource Sample.fresh_runtime = true ->
   Handle.destroy_solver_nif
     (snd (Handle.create_solver_nif (snd (Handle.load Sample.fresh_runtime)) []))
     [TResource (next_addr Sample.fresh_runtime)]
   = (TAtom "ok", snd (Handle.create_solver_nif (snd (Handle.load Sample.fresh_runtime)) []))).
Proof.
  apply (proj1 (load_then_create_then_destroy Sample.fresh_runtime)). reflexivity.
Defined.

(** ** The driver's input and its failure reports *)

Module StdinFacts.
Import Str StrFacts Driver.

Lemma getline_step (s : string) :
  s <> EmptyString ->
  with_final_newline s
  = fst (getline_go s) +:+ nl +:+ with_final_newline (snd (getline_go s)) /\
  String.length (snd (getline_go s)) < String.length s.
Proof.
  induction s as [|a r IH]; [congruence |]. intros _.
  cbn [getline_go]. destruct (Ascii.eqb a "010") eqn:E.
  - apply Ascii.eqb_eq in E. subst a. cbn [fst snd].
    split; [| simpl; lia]. destruct r; reflexivity.
  - destruct r as [|b r'].
    + cbn. rewrite E. split; [reflexivity | lia].
    + destruct (IH ltac:(discriminate)) as [H1 H2].
      destruct (getline_go (String b r')) as [line rest] eqn:G. cbn [fst snd] in *.
      split; [| simpl in *; lia].
      change (with_final_newline (String a (String b r')))
        with (String a (with_final_newline (String b r'))).
      now rewrite H1.
Qed.

Lemma read_lines_all (fuel : nat) (s acc : string) :
  String.length s < fuel ->
  read_lines fuel s acc = acc +:+ with_final_newline s.
Proof.
  revert s acc; induction fuel as [|fuel IH]; intros s acc Hlen; [lia |].
  destruct s as [|a r]; [simpl; now rewrite app_nil_r |].
  cbn [read_lines getline].
  destruct (getline_step (String a r) ltac:(discriminate)) as [H1 H2].
  destruct (getline_go (String a r)) as [line rest]. cbn [fst snd] in *.
  rewrite IH by lia. rewrite H1, !app_assoc. reflexivity.
Qed.

Lemma back_with_final_newline (s : string) :
  s <> EmptyString -> back (with_final_newline s) = Some "010"%char.
Proof.
  induction s as [|a r IH]; [congruence |]. intros _.
  destruct r as [|b r'].
  - cbn. destruct (Ascii.eqb a "010") eqn:E; [| reflexivity].
    apply Ascii.eqb_eq in E. now subst a.
  - change (with_final_newline (String a (String b r')))
      with (String a (with_final_newline (String b r'))).
    specialize (IH ltac:(discriminate)). revert IH.
    generalize (with_final_newline (String b r')). intros x IH.
    destruct x; [discriminate IH | exact IH].
Qed.

Lemma back_none (s : string) : back s = None -> s = EmptyString.
Proof.
  induction s as [|a r IH]; [reflexivity |].
  destruct r as [|b r']; [discriminate |].
  intros H. change (back (String b r') = None) in H.
  specialize (IH H). discriminate IH.
Qed.

Lemma with_final_newline_back (s : string) :
  with_final_newline s
  = match back s with
    | None => EmptyString
    | Some a => if Ascii.eqb a "010"%char then s else s +:+ nl
    end.
Proof.
  induction s as [|a r IH]; [reflexivity |].
  destruct r as [|b r'].
  - cbn. destruct (Ascii.eqb a "010"); reflexivity.
  - change (with_final_newline (String a (String b r')))
      with (String a (with_final_newline (String b r'))).
    change (back (String a (String b r'))) with (back (String b r')).
    rewrite IH. destruct (back (String b r')) as [c|] eqn:B.
    + destruct (Ascii.eqb c "010"); reflexivity.
    + apply back_none in B. discriminate B.
Qed.

Lemma read_stdin_normalises (stdin : string) :
  read_stdin stdin = with_final_newline stdin.
Proof.
  unfold read_stdin. rewrite read_lines_all by lia. cbn [String.append].
  destruct stdin as [|a r]; [reflexivity |].
  rewrite (back_with_final_newline (String a r)) by discriminate.
  rewrite Ascii.eqb_refl. cbn [negb]. now rewrite andb_false_r.
Qed.

End StdinFacts.

(** X18: the payload the driver submits is its standard input, byte for
    byte, with one newline appended when the input is not empty and does
    not already end with a newline; an input of blank lines is kept as it
    is and is not treated as empty. *)
Theorem driver_payload_is_input (stdin : string) :
  Driver.read_stdin stdin
  = match Driver.back stdin with
    | None => EmptyString
    | Some last => if Ascii.eqb last "010"%char then stdin else stdin +:+ Str.nl
    end.
Proof.
  rewrite StdinFacts.read_stdin_normalises. apply StdinFacts.with_final_newline_back.
Qed.

(** X19: a run of the driver writes to one stream only.  Either the error
    stream holds [error], a newline, one reason and a newline, the output
    stream is empty and the exit status is 1; or the output stream holds
    [ok], a newline and the solution, the error stream is empty and the
    exit status is 0. *)
Theorem driver_writes_one_stream (c : Driver.chuffed) (stdin : string) :
  (exists reason,
      Driver.out (Driver.main c stdin) = EmptyString /\
      Driver.err (Driver.main c stdin) = "error" +:+ Str.nl +:+ reason +:+ Str.nl /\
      Driver.exit_status (Driver.main c stdin) = 1%Z) \/
  (exists solution,
      Driver.out (Driver.main c stdin) = "ok" +:+ Str.nl +:+ solution /\
      Driver.err (Driver.main c stdin) = EmptyString /\
      Driver.exit_status (Driver.main c stdin) = 0%Z).
Proof.
  destruct (DriverFacts.main_cases c stdin) as [[reason ->] | [solution ->]].
  - left. exists reason. repeat split.
  - right. exists solution. repeat split.
Qed.

(** X20: on a non-empty input, an exception thrown by option parsing, by
    the FlatZinc parser or by the engine is reported as [error] and its
    message, or [Unknown exception] when it is not a standard exception;
    a parser that returns without a problem is reported as
    [Failed to parse FlatZinc problem], and the engine is then not
    consulted.  The exit status is 1 in each case. *)
Theorem driver_failure_reports (c : Driver.chuffed) (stdin errors : string)
    (e : Driver.exn) :
  stdin <> EmptyString ->
  (Driver.parseOptions c = Some e -> Driver.main c stdin = Driver.caught e) /\
  (Driver.parseOptions c = None ->
   Driver.fz_solve c (Driver.read_stdin stdin) = inl e ->
   Driver.main c stdin = Driver.caught e) /\
  (Driver.parseOptions c = None ->
   Driver.fz_solve c (Driver.read_stdin stdin) = inr (false, errors) ->
   Driver.main c stdin
   = {| Driver.out := EmptyString;
        Driver.err := "error" +:+ Str.nl +:+ "Failed to parse FlatZinc problem" +:+ Str.nl;
        Driver.exit_status := 1 |}) /\
  (Driver.parseOptions c = None ->
   Driver.fz_solve c (Driver.read_stdin stdin) = inr (true, errors) ->
   Driver.engine_solve c (Driver.read_stdin stdin) = inl e ->
   Driver.main c stdin = Driver.caught e) /\
  Driver.caught e
  = {| Driver.out := EmptyString;
       Driver.err :=
         "error" +:+ Str.nl
         +:+ match e with
             | Driver.StdException what => what
             | Driver.OtherException => "Unknown exception"
             end +:+ Str.nl;
       Driver.exit_status := 1 |}.
Proof.
  intros Hne. unfold Driver.main.
  destruct (Str.empty (Driver.read_stdin stdin)) eqn:E.
  - apply (proj1 (StrFacts.empty_iff _)) in E.
    apply (proj1 (DriverFacts.read_stdin_empty _)) in E. congruence.
  - repeat split.
    + now intros ->.
    + now intros -> ->.
    + now intros -> ->.
    + now intros -> -> ->.
    + destruct e; reflexivity.
Qed.

Lemma driver_failure_reports_witness :
  Driver.main
    {| Driver.parseOptions := None;
       Driver.fz_solve := fun _ => inl (Driver.StdException "syntax error");
       Driver.engine_solve := fun _ => inr (Driver.RES_SAT, EmptyString) |}
    Sample.payload
  = Driver.caught (Driver.StdException "syntax error").
Proof.
  apply (proj1 (proj2 (driver_failure_reports
                         {| Driver.parseOptions := None;
                            Driver.fz_solve :=
                              fun _ => inl (Driver.StdException "syntax error");
                            Driver.engine_solve :=
                              fun _ => inr (Driver.RES_SAT, EmptyString) |}
                         Sample.payload EmptyString
                         (Driver.StdException "syntax error")
                         ltac:(discriminate))));
    reflexivity.
Defined.

(** ** What the solver is given *)

Module PayloadFacts.

Lemma create_temp_file_insert (pf : platform) (w : world) (prefix suffix : string)
    (fs : gmap string string) (temp_file content : string) :
  fst (Bridge.create_temp_file pf w prefix suffix fs) = Some temp_file ->
  <[temp_file := content]> (snd (Bridge.create_temp_file pf w prefix suffix fs))
  = <[temp_file := content]> fs.
Proof.
  unfold Bridge.create_temp_file, Os.mkstemp, Os.GetTempFileNameA, Os.remove.
  destruct pf.
  - destruct (w_mkstemp w _) as [name|]; [| discriminate].
    destruct (fs !! name); [discriminate |].
    simpl. intros [= <-]. apply insert_insert_eq.
  - destruct (w_temp_path w) as [dir|]; [| discriminate].
    destruct (w_temp_file_name w dir "CHF") as [name|]; [| discriminate].
    destruct (fs !! name) eqn:E; [discriminate |].
    simpl. intros _. f_equal. now apply delete_insert_id.
Qed.

End PayloadFacts.

(** X21: when the scratch file is written, the solver is run on a file
    system that differs from the initial one only at the scratch path,
    which holds the payload byte for byte; the payload is not inspected, so
    an empty one is handed over like any other.  The result is the
    classifier's answer for the solver's output and its exit code, taken
    through [WEXITSTATUS] on POSIX-like systems and as returned on
    Windows. *)
Theorem solver_sees_payload (pf : platform) (w : world) (payload : string)
    (argv1 : term) (st : state) (temp_file : string) (pipe : child) :
  fst (Bridge.create_temp_file pf w "chuffed_" ".fzn" (files st)) = Some temp_file ->
  w_open w temp_file = true ->
  w_write w temp_file payload = WriteComplete ->
  w_popen w (Bridge.shell_line pf (Bridge.solver_command pf temp_file))
    (<[temp_file := payload]> (files st))
  = Some pipe ->
  child_status pipe <> (-1)%Z ->
  fst (Bridge.solve_flatzinc_nif pf w [TBinary payload; argv1] st)
  = Bridge.solve_result w
      match pf with
      | Posix => Os.WEXITSTATUS (child_status pipe)
      | Win32 => child_status pipe
      end
      (Os.read_pipe (child_output pipe)).
Proof.
  intros Hc Ho Hw Hp Hs.
  apply (CommandFacts.solve_reaches_classifier pf w payload argv1 st temp_file);
    try assumption.
  unfold Bridge.execute_command. cbn [files set_files].
  rewrite insert_insert_eq.
  rewrite (PayloadFacts.create_temp_file_insert pf w "chuffed_" ".fzn" (files st)
             temp_file payload Hc).
  rewrite Hp. apply Z.eqb_neq in Hs. rewrite Hs. destruct pf; reflexivity.
Qed.

(** The empty payload, on the POSIX sample system. *)
Lemma solver_sees_payload_witness :
  fst (Bridge.solve_flatzinc_nif Posix (Sample.posix 256 Sample.unsat_output true)
         [TBinary EmptyString; TBinary "{}"] Sample.busy)
  = Bridge.solve_result (Sample.posix 256 Sample.unsat_output true)
      (Os.WEXITSTATUS 256) (Os.read_pipe Sample.unsat_output).
Proof.
  apply (solver_sees_payload Posix (Sample.posix 256 Sample.unsat_output true)
           EmptyString (TBinary "{}") Sample.busy Sample.scratch
           {| child_output := Sample.unsat_output;
              child_status := 256;
              child_files := <[Sample.scratch := EmptyString]> (files Sample.busy) |}).
  - vm_compute. reflexivity.
  - reflexivity.
  - reflexivity.
  - reflexivity.
  - discriminate.
Defined.
